(** * CartpoleRL: the cart-pole simulator and the REINFORCE agent

    A shallow embedding of [services/cartPole.ts], [services/math.ts],
    [services/agent.ts] and the constants of [types.ts].

    A JavaScript [number] is an IEEE 754 binary64 value, and so is Rocq's
    primitive [float]: [+], [-], [*], [/], [sqrt] and the comparisons are
    the same correctly rounded operations, and decimal literals are read
    as the nearest binary64 value in both languages.  The transcendental
    functions of [Math] ([sin], [cos], [tanh], [exp]) are left to the
    implementation by ECMAScript; they are parameters of the sections
    that use them, so every result holds for any implementation. *)

From Stdlib Require Import Floats ZArith List Bool Lia PeanoNat.
Import ListNotations.

Set Warnings "-inexact-float".

(** ** JavaScript numbers *)

Module JSNumber.

Local Open Scope float_scope.

Definition number := float.

(** [ToBoolean] on a number: [+0], [-0] and [NaN] are falsy. *)
Definition truthy (v : number) : bool := negb (is_zero v || is_nan v).

(** [a || b] on numbers. *)
Definition js_or (a b : number) : number := if truthy a then a else b.

(** [a === b] on numbers: IEEE equality ([NaN] differs from itself,
    [+0] equals [-0]). *)
Definition strict_eq (a b : number) : bool := (a =? b).

(** SameValueZero of ECMAScript: the same IEEE value, [NaN] being the
    same as [NaN] and [+0] the same as [-0]. *)
Definition same_value_zero (a b : number) : Prop := a = b \/ (a =? b) = true.

(** The length of an array as a number (exact below 2^53; array lengths
    stay below 2^32). *)
Definition of_length (n : nat) : number := of_uint63 (Uint63.of_Z (Z.of_nat n)).

(** [Math.PI]: the binary64 value nearest to pi. *)
Definition Math_PI : number := 0x1.921fb54442d18p+1.

(** [Math.sqrt]: the correctly rounded square root. *)
Definition Math_sqrt (v : number) : number := sqrt v.

(** [Math.pow(v, 2)], the only use of [Math.pow] in the sources: the
    square of [v] (fdlibm and V8 return [v * v] for the exponent 2). *)
Definition Math_pow2 (v : number) : number := v * v.

(** [Math.max] of two numbers: [NaN] if either is, [+0] above [-0]. *)
Definition max2 (a b : number) : number :=
  if is_nan a || is_nan b then nan
  else if a <? b then b
  else if b <? a then a
  else if get_sign a then b else a.

(** [Math.max(...l)]; [-Infinity] for no argument. *)
Definition Math_max (l : list number) : number := fold_left max2 l neg_infinity.

End JSNumber.

(** ** JavaScript arrays of numbers *)

Module JSArray.

Import JSNumber.
Local Open Scope float_scope.

(** [l[i]] read in an arithmetic context: an index out of range gives
    [undefined], which [ToNumber] turns into [NaN]. *)
Definition get (l : list number) (i : nat) : number := nth i l nan.

(** [m[i][j]] for an array of rows.  (A missing row would raise a
    TypeError; the shape invariant of the agent excludes it.) *)
Definition get2 (m : list (list number)) (i j : nat) : number :=
  get (nth i m []) j.

(** [l[i] = v]: replaces in range; past the end the array is extended,
    the holes reading as [undefined]. *)
Fixpoint set (l : list number) (i : nat) (v : number) : list number :=
  match l, i with
  | [], O => [v]
  | [], S k => nan :: set [] k v
  | _ :: t, O => v :: t
  | h :: t, S k => h :: set t k v
  end.

(** [m[i][j] = v], the row [m[i]] being updated in place. *)
Fixpoint set2 (m : list (list number)) (i j : nat) (v : number)
  : list (list number) :=
  match m, i with
  | [], _ => []
  | r :: t, O => set r j v :: t
  | r :: t, S k => r :: set2 t k j v
  end.

(** [for (let i = 0; i < n; i++) body(i)] over a state [S]. *)
Definition for_loop {S : Type} (n : nat) (body : nat -> S -> S) (s : S) : S :=
  fold_left (fun acc i => body i acc) (seq 0 n) s.

(** [l.map((v, i) => f(v, i))]. *)
Fixpoint mapi_from {A B : Type} (k : nat) (f : A -> nat -> B) (l : list A)
  : list B :=
  match l with
  | [] => []
  | a :: t => f a k :: mapi_from (S k) f t
  end.

Definition mapi {A B : Type} (f : A -> nat -> B) (l : list A) : list B :=
  mapi_from 0 f l.

(** [l.reduce((a, b) => f(a, b), init)]. *)
Definition reduce {A B : Type} (f : B -> A -> B) (init : B) (l : list A) : B :=
  fold_left f l init.

End JSArray.

(** ** [types.ts] *)

Module Types.

Import JSNumber.
Local Open Scope float_scope.

Record CartPoleState := mkState {
  x : number;
  xDot : number;
  theta : number;
  thetaDot : number
}.

Record LayerActivations := mkActivations {
  input : list number;
  hidden : list number;
  output : list number
}.

(** [CARTPOLE_THRESHOLDS.x] and [CARTPOLE_THRESHOLDS.theta]. *)
Definition CARTPOLE_THRESHOLDS_x : number := 2.4.
Definition CARTPOLE_THRESHOLDS_theta : number := 12 * (Math_PI / 180).

End Types.

(** ** [services/cartPole.ts] *)

Module CartPole.

Import JSNumber Types.
Local Open Scope float_scope.

(** The fields of [CartPoleEnv] that are set once and never assigned. *)
Definition gravity : number := 9.8.
Definition massCart : number := 1.0.
Definition massPole : number := 0.1.
Definition totalMass : number := 1.1.
Definition length : number := 0.5.
Definition poleMassLength : number := 0.05.
Definition forceMag : number := 10.0.
Definition tau : number := 0.02.

Record StepResult := mkStepResult {
  nextState : CartPoleState;
  reward : number;
  done : bool
}.

(** [reset()]: [r1] to [r4] are the four values that [Math.random()]
    returns; the result is the new [this.state] (and its returned copy). *)
Definition reset (r1 r2 r3 r4 : number) : CartPoleState :=
  mkState (r1 * 0.05 - 0.025) (r2 * 0.05 - 0.025)
          (r3 * 0.05 - 0.025) (r4 * 0.05 - 0.025).

(** [const force = action === 1 ? this.forceMag : -this.forceMag]. *)
Definition force_of (action : number) : number :=
  if strict_eq action 1 then forceMag else - forceMag.

(** The [done] expression of [step], on the integrated position and angle. *)
Definition is_done (nextX nextTheta : number) : bool :=
  (nextX <? - CARTPOLE_THRESHOLDS_x)
  || (CARTPOLE_THRESHOLDS_x <? nextX)
  || (nextTheta <? - CARTPOLE_THRESHOLDS_theta)
  || (CARTPOLE_THRESHOLDS_theta <? nextTheta).

Section Env.

Variables Math_cos Math_sin : number -> number.

(** [step(action)]: the first component is the new [this.state], the
    second the returned object (whose [nextState] is a copy of it). *)
Definition step (state : CartPoleState) (action : number)
  : CartPoleState * StepResult :=
  let force := force_of action in
  let costheta := Math_cos (theta state) in
  let sintheta := Math_sin (theta state) in
  let temp :=
    (force + poleMassLength * thetaDot state * thetaDot state * sintheta)
    / totalMass in
  let thetaAcc :=
    (gravity * sintheta - costheta * temp)
    / (length * (4.0 / 3.0 - (massPole * costheta * costheta) / totalMass)) in
  let xAcc := temp - (poleMassLength * thetaAcc * costheta) / totalMass in
  let nextX := x state + tau * xDot state in
  let nextXDot := xDot state + tau * xAcc in
  let nextTheta := theta state + tau * thetaDot state in
  let nextThetaDot := thetaDot state + tau * thetaAcc in
  let state' := mkState nextX nextXDot nextTheta nextThetaDot in
  (state', mkStepResult state' 1 (is_done nextX nextTheta)).

End Env.

End CartPole.

(** ** [services/math.ts] *)

Module MathTs.

Import JSNumber JSArray.
Local Open Scope float_scope.

(** [randomMatrix(rows, cols)]: [draw i j] stands for the Gaussian sample
    that [gaussianRandom] returns for the cell [(i, j)]. *)
Definition randomMatrix (draw : nat -> nat -> number) (rows cols : nat)
  : list (list number) :=
  map (fun i => map (fun j => draw i j) (seq 0 cols)) (seq 0 rows).

Definition zeroVector (length : nat) : list number := repeat 0 length.

Section Softmax.

Variable Math_exp : number -> number.

Definition softmax (logits : list number) : list number :=
  let maxLogit := Math_max logits in
  let exps := map (fun l => Math_exp (l - maxLogit)) logits in
  let sumExps := reduce (fun a b => a + b) 0 exps in
  map (fun e => e / sumExps) exps.

End Softmax.

End MathTs.

(** ** [services/agent.ts] *)

Module Agent.

Import JSNumber JSArray Types MathTs.
Local Open Scope float_scope.

(** The two sizes that the class sets once and never assigns. *)
Definition inputSize : nat := 4.
Definition outputSize : nat := 2.

(** The fields of [PolicyGradientAgent].  The arrays are held by value:
    the rows of a weight matrix are distinct arrays (as [randomMatrix]
    builds them), so an update of one row leaves the others alone. *)
Record PolicyGradientAgent := mkAgent {
  hiddenSize : nat;
  learningRate : number;
  gamma : number;
  w1 : list (list number);
  b1 : list number;
  w2 : list (list number);
  b2 : list number;
  episodeStates : list (list number);
  episodeHiddens : list (list number);
  episodeProbs : list (list number);
  episodeActions : list number;
  episodeRewards : list number
}.

(** [new PolicyGradientAgent({hiddenSize, learningRate, gamma})], the
    defaults of [??] being resolved by the caller. *)
Definition new_agent (draw1 draw2 : nat -> nat -> number)
    (hiddenSize : nat) (learningRate gamma : number) : PolicyGradientAgent :=
  mkAgent hiddenSize learningRate gamma
    (randomMatrix draw1 inputSize hiddenSize) (zeroVector hiddenSize)
    (randomMatrix draw2 hiddenSize outputSize) (zeroVector outputSize)
    [] [] [] [] [].

Definition resetMemory (a : PolicyGradientAgent) : PolicyGradientAgent :=
  mkAgent (hiddenSize a) (learningRate a) (gamma a)
    (w1 a) (b1 a) (w2 a) (b2 a) [] [] [] [] [].

Section Predict.

Variables Math_tanh Math_exp : number -> number.

(** [predict(state)]; [random] is the value that [Math.random()] returns.
    The first component is the agent after the call. *)
Definition predict (a : PolicyGradientAgent) (state : CartPoleState)
    (random : number)
  : PolicyGradientAgent * (number * LayerActivations) :=
  let x := [Types.x state; xDot state; theta state; thetaDot state] in
  let hidden :=
    mapi (fun b hIdx =>
            Math_tanh
              (for_loop inputSize
                 (fun i sum => sum + get x i * get2 (w1 a) i hIdx) b))
         (b1 a) in
  let logits :=
    mapi (fun b oIdx =>
            for_loop (hiddenSize a)
              (fun h sum => sum + get hidden h * get2 (w2 a) h oIdx) b)
         (b2 a) in
  let probs := softmax Math_exp logits in
  let action := if random <? get probs 0 then 0 else 1 in
  (a, (action, mkActivations x hidden probs)).

End Predict.

Definition storeStep (a : PolicyGradientAgent) (activations : LayerActivations)
    (action reward : number) : PolicyGradientAgent :=
  mkAgent (hiddenSize a) (learningRate a) (gamma a)
    (w1 a) (b1 a) (w2 a) (b2 a)
    (episodeStates a ++ [input activations])
    (episodeHiddens a ++ [hidden activations])
    (episodeProbs a ++ [output activations])
    (episodeActions a ++ [action])
    (episodeRewards a ++ [reward]).

(** *** [train]: discounted returns *)

(** [for (let t = N - 1; t >= 0; t--)]: [k] is [t + 1], the number of
    iterations left. *)
Fixpoint returns_loop (gamma : number) (rewards : list number) (k : nat)
    (runningAdd : number) (returns : list number) : list number :=
  match k with
  | O => returns
  | S t =>
      let runningAdd' := runningAdd * gamma + get rewards t in
      returns_loop gamma rewards t runningAdd' (set returns t runningAdd')
  end.

(** The local [returns] of [train]. *)
Definition train_returns (a : PolicyGradientAgent) : list number :=
  let N := List.length (episodeRewards a) in
  returns_loop (gamma a) (episodeRewards a) N 0 (repeat 0 N).

(** *** [train]: normalisation *)

(** The locals [mean], [std] and [normReturns] of [train], for an array
    [returns] and [N = this.episodeRewards.length]. *)
Definition mean_of (N : nat) (returns : list number) : number :=
  reduce (fun a b => a + b) 0 returns / of_length N.

Definition std_of (N : nat) (returns : list number) : number :=
  let mean := mean_of N returns in
  js_or
    (Math_sqrt
       (reduce (fun a b => a + Math_pow2 (b - mean)) 0 returns / of_length N))
    1.

Definition normalize (N : nat) (returns : list number) : list number :=
  let mean := mean_of N returns in
  let std := std_of N returns in
  map (fun r => (r - mean) / std) returns.

Definition train_normReturns (a : PolicyGradientAgent) : list number :=
  normalize (List.length (episodeRewards a)) (train_returns a).

(** *** [train]: gradients *)

Record Gradients := mkGradients {
  dW2 : list (list number);
  db2 : list number;
  dW1 : list (list number);
  db1 : list number
}.

(** The body of [for (let t = 0; t < N; t++)].  (An episode array shorter
    than [episodeRewards] would make [prob], [hidden] or [input]
    [undefined] and the read of its cells a TypeError; the alignment of
    the five arrays excludes it.) *)
Definition backprop_step (a : PolicyGradientAgent) (normReturns : list number)
    (t : nat) (g : Gradients) : Gradients :=
  let prob := nth t (episodeProbs a) [] in
  let action := get (episodeActions a) t in
  let hidden := nth t (episodeHiddens a) [] in
  let input := nth t (episodeStates a) [] in
  let adv := get normReturns t in
  let dLogits := [0; 0] in
  let dLogits := set dLogits 0 (get prob 0 - (if strict_eq action 0 then 1 else 0)) in
  let dLogits := set dLogits 1 (get prob 1 - (if strict_eq action 1 then 1 else 0)) in
  (* Backprop to W2, b2 *)
  let '(db2', dW2') :=
    for_loop outputSize
      (fun o '(db2, dW2) =>
         let gradTerm := get dLogits o * adv in
         let db2 := set db2 o (get db2 o + gradTerm) in
         let dW2 :=
           for_loop (hiddenSize a)
             (fun h dW2 => set2 dW2 h o (get2 dW2 h o + get hidden h * gradTerm))
             dW2 in
         (db2, dW2))
      (db2 g, dW2 g) in
  (* Backprop to Hidden *)
  let dHidden :=
    for_loop (hiddenSize a)
      (fun h dHidden =>
         let sum :=
           for_loop outputSize
             (fun o sum => sum + get dLogits o * adv * get2 (w2 a) h o) 0 in
         set dHidden h (sum * (1 - get hidden h * get hidden h)))
      (repeat 0 (hiddenSize a)) in
  (* Backprop to W1, b1 *)
  let '(db1', dW1') :=
    for_loop (hiddenSize a)
      (fun h '(db1, dW1) =>
         let db1 := set db1 h (get db1 h + get dHidden h) in
         let dW1 :=
           for_loop inputSize
             (fun i dW1 => set2 dW1 i h (get2 dW1 i h + get input i * get dHidden h))
             dW1 in
         (db1, dW1))
      (db1 g, dW1 g) in
  mkGradients dW2' db2' dW1' db1'.

(** The four accumulators after the loop over [t]. *)
Definition train_gradients (a : PolicyGradientAgent) : Gradients :=
  let N := List.length (episodeRewards a) in
  let normReturns := train_normReturns a in
  let dW2 := map (fun row => map (fun _ => 0) row) (w2 a) in
  let db2 := map (fun _ => 0) (b2 a) in
  let dW1 := map (fun row => map (fun _ => 0) row) (w1 a) in
  let db1 := map (fun _ => 0) (b1 a) in
  for_loop N (backprop_step a normReturns) (mkGradients dW2 db2 dW1 db1).

(** *** [train]: the update *)

(** The loops under [// Apply gradients]: [w[i][j] -= learningRate *
    dW[i][j]] over a matrix, [b[i] -= learningRate * db[i]] over a
    vector. *)
Definition apply_matrix (rows cols : nat) (learningRate : number)
    (w dW : list (list number)) : list (list number) :=
  for_loop rows
    (fun i w =>
       for_loop cols
         (fun j w => set2 w i j (get2 w i j - learningRate * get2 dW i j)) w)
    w.

Definition apply_vector (n : nat) (learningRate : number)
    (b db : list number) : list number :=
  for_loop n (fun i b => set b i (get b i - learningRate * get db i)) b.

Definition train (a : PolicyGradientAgent) : PolicyGradientAgent :=
  let g := train_gradients a in
  let w1' := apply_matrix inputSize (hiddenSize a) (learningRate a) (w1 a) (dW1 g) in
  let b1' := apply_vector (hiddenSize a) (learningRate a) (b1 a) (db1 g) in
  let w2' := apply_matrix (hiddenSize a) outputSize (learningRate a) (w2 a) (dW2 g) in
  let b2' := apply_vector outputSize (learningRate a) (b2 a) (db2 g) in
  resetMemory
    (mkAgent (hiddenSize a) (learningRate a) (gamma a) w1' b1' w2' b2'
       (episodeStates a) (episodeHiddens a) (episodeProbs a)
       (episodeActions a) (episodeRewards a)).

(** *** Invariants of the class *)

(** The shapes that the constructor gives the parameter arrays
    (4 x H, H, H x 2, 2). *)
Definition wf_agent (a : PolicyGradientAgent) : Prop :=
  List.length (w1 a) = inputSize
  /\ Forall (fun row => List.length row = hiddenSize a) (w1 a)
  /\ List.length (b1 a) = hiddenSize a
  /\ List.length (w2 a) = hiddenSize a
  /\ Forall (fun row => List.length row = outputSize) (w2 a)
  /\ List.length (b2 a) = outputSize.

(** The five episode arrays have one length. *)
Definition aligned (a : PolicyGradientAgent) : Prop :=
  List.length (episodeStates a) = List.length (episodeRewards a)
  /\ List.length (episodeHiddens a) = List.length (episodeRewards a)
  /\ List.length (episodeProbs a) = List.length (episodeRewards a)
  /\ List.length (episodeActions a) = List.length (episodeRewards a).

Definition buffer_empty (a : PolicyGradientAgent) : Prop :=
  episodeStates a = [] /\ episodeHiddens a = [] /\ episodeProbs a = []
  /\ episodeActions a = [] /\ episodeRewards a = [].

(** The calls that the driver makes on an agent between two
    constructions. *)
Inductive call :=
| StoreStep (activations : LayerActivations) (action reward : number)
| Train.

Definition do_call (a : PolicyGradientAgent) (c : call) : PolicyGradientAgent :=
  match c with
  | StoreStep activations action reward => storeStep a activations action reward
  | Train => train a
  end.

Definition run (calls : list call) (a : PolicyGradientAgent)
  : PolicyGradientAgent :=
  fold_left do_call calls a.

End Agent.

(** ** The REINFORCE update as the specification words it *)

Module Reinforce.

Import JSNumber JSArray Types Agent.
Local Open Scope float_scope.

(** Sums run from the first term to the last, starting from 0
    (floating-point addition is not associative). *)
Fixpoint sum_upto (n : nat) (f : nat -> number) : number :=
  match n with
  | O => 0
  | S k => sum_upto k f + f k
  end.

Definition sum_list (l : list number) : number := fold_left add l 0.

(** The sample mean and the population standard deviation (the sum of
    squared deviations over [N], not [N - 1]) of the returns. *)
Definition sample_mean (N : nat) (G : list number) : number :=
  sum_list G / of_length N.

Definition population_std (N : nat) (G : list number) : number :=
  let mean := sample_mean N G in
  Math_sqrt (sum_list (map (fun r => (r - mean) * (r - mean)) G) / of_length N).

(** [onehot(action)[o]]. *)
Definition onehot (action : number) (o : nat) : number :=
  if strict_eq action (of_length o) then 1 else 0.

(** [advantage[t]]: the normalised return that [train] uses at step [t]. *)
Definition advantage (a : PolicyGradientAgent) (t : nat) : number :=
  get (train_normReturns a) t.

(** The error signal of output unit [o] at step [t]. *)
Definition output_error (a : PolicyGradientAgent) (t o : nat) : number :=
  (get (nth t (episodeProbs a) []) o - onehot (get (episodeActions a) t) o)
  * advantage a t.

(** The error signal of hidden unit [h] at step [t]: the output errors
    through [W2], times the derivative [1 - h^2] of tanh. *)
Definition hidden_error (a : PolicyGradientAgent) (t h : nat) : number :=
  let hid := get (nth t (episodeHiddens a) []) h in
  sum_upto outputSize (fun o => output_error a t o * get2 (w2 a) h o)
  * (1 - hid * hid).

(** The gradients, summed over the steps of the episode. *)
Definition grad_W2 (a : PolicyGradientAgent) (h o : nat) : number :=
  sum_upto (List.length (episodeRewards a))
    (fun t => get (nth t (episodeHiddens a) []) h * output_error a t o).

Definition grad_b2 (a : PolicyGradientAgent) (o : nat) : number :=
  sum_upto (List.length (episodeRewards a)) (fun t => output_error a t o).

Definition grad_W1 (a : PolicyGradientAgent) (i h : nat) : number :=
  sum_upto (List.length (episodeRewards a))
    (fun t => get (nth t (episodeStates a) []) i * hidden_error a t h).

Definition grad_b1 (a : PolicyGradientAgent) (h : nat) : number :=
  sum_upto (List.length (episodeRewards a)) (fun t => hidden_error a t h).

End Reinforce.

(** ** The forward pass as the specification words it *)

Module Policy.

Import JSNumber JSArray Types Agent Reinforce.
Local Open Scope float_scope.

(** Column [j] of a matrix held as an array of rows. *)
Definition column (W : list (list number)) (j : nat) : list number :=
  map (fun row => get row j) W.

(** [b + xs . ws], the products being added to [b] one after the other. *)
Definition affine (b : number) (xs ws : list number) : number :=
  fold_left (fun s xw => s + fst xw * snd xw) (combine xs ws) b.

Section Forward.

Variables Math_tanh Math_exp : number -> number.

(** [h = tanh(W1^T x + b1)], unit by unit. *)
Definition hidden_layer (a : PolicyGradientAgent) (x : list number)
  : list number :=
  map (fun j => Math_tanh (affine (get (b1 a) j) x (column (w1 a) j)))
      (seq 0 (hiddenSize a)).

(** [z = W2^T h + b2]. *)
Definition logits_layer (a : PolicyGradientAgent) (h : list number)
  : list number :=
  map (fun o => affine (get (b2 a) o) h (column (w2 a) o)) (seq 0 outputSize).

(** [softmax(z)], the largest logit being subtracted before [exp]. *)
Definition stable_softmax (z : list number) : list number :=
  let e := fun v => Math_exp (v - Math_max z) in
  map (fun v => e v / sum_list (map e z)) z.

End Forward.

End Policy.

(** ** Object identity: [getWeights] *)

(** [Agent] above holds the parameter arrays by value, which is all that
    [predict], [storeStep] and [train] can observe.  What [getWeights]
    hands out is visible only when objects have an identity: here a
    variable or a field holds a reference into a heap. *)

Module Aliasing.

Import JSNumber JSArray.

Definition ref := nat.

(** A [number[]]; a [number[][]], whose elements refer to its rows; an
    object with the fields [w1], [b1], [w2], [b2] (the parameter fields
    of an agent, or a [NeuralNetworkWeights]). *)
Inductive value :=
| Numbers (cells : list number)
| Rows (rows : list ref)
| Fields (w1 b1 w2 b2 : ref).

(** The objects allocated so far are those below [next]. *)
Record heap := mkHeap {
  cell : ref -> option value;
  next : ref
}.

Definition heap_wf (h : heap) : Prop :=
  forall r, next h <= r -> cell h r = None.

Definition store (h : heap) (r : ref) (v : value) : heap :=
  mkHeap (fun r' => if Nat.eqb r' r then Some v else cell h r') (next h).

(** An object literal or an array literal: a new object. *)
Definition alloc (h : heap) (v : value) : ref * heap :=
  (next h, mkHeap (fun r' => if Nat.eqb r' (next h) then Some v else cell h r')
                  (S (next h))).

(** [getWeights()]: [return { w1: this.w1, b1: this.b1, w2: this.w2,
    b2: this.b2 }]. *)
Definition getWeights (h : heap) (this : ref) : option (ref * heap) :=
  match cell h this with
  | Some (Fields w1 b1 w2 b2) => Some (alloc h (Fields w1 b1 w2 b2))
  | _ => None
  end.

(** Reading a [number[]] through a reference, and the field [b1] of an
    object. *)
Definition read_vector (h : heap) (r : ref) : list number :=
  match cell h r with
  | Some (Numbers cells) => cells
  | _ => []
  end.

Definition field_b1 (h : heap) (obj : ref) : option ref :=
  match cell h obj with
  | Some (Fields _ b1 _ _) => Some b1
  | _ => None
  end.

(** The live bias vector [this.b1] of the agent. *)
Definition live_b1 (h : heap) (this : ref) : list number :=
  match field_b1 h this with
  | Some b1 => read_vector h b1
  | None => []
  end.

(** What a caller may do with what it holds: [obj.b1 = r], on an object;
    [arr[i] = v], on an array of numbers. *)
Definition assign_b1 (h : heap) (obj r : ref) : heap :=
  match cell h obj with
  | Some (Fields w1 _ w2 b2) => store h obj (Fields w1 r w2 b2)
  | _ => h
  end.

Definition write (h : heap) (arr : ref) (i : nat) (v : number) : heap :=
  match cell h arr with
  | Some (Numbers cells) => store h arr (Numbers (set cells i v))
  | _ => h
  end.

(** Reading a [number[][]] through a reference: its rows, in order. *)
Definition read_matrix (h : heap) (r : ref) : list (list number) :=
  match cell h r with
  | Some (Rows rows) => map (read_vector h) rows
  | _ => []
  end.

(** The live parameters [this.w1], [this.b1], [this.w2], [this.b2] of an
    agent, by value. *)
Definition live_parameters (h : heap) (this : ref)
  : option (list (list number) * list number * list (list number)
            * list number) :=
  match cell h this with
  | Some (Fields w1 b1 w2 b2) =>
      Some (read_matrix h w1, read_vector h b1, read_matrix h w2,
            read_vector h b2)
  | _ => None
  end.

(** The names of the four fields, and [obj.k = r]. *)
Inductive key := W1 | B1 | W2 | B2.

Definition assign (h : heap) (obj : ref) (k : key) (r : ref) : heap :=
  match cell h obj with
  | Some (Fields w1 b1 w2 b2) =>
      store h obj
        match k with
        | W1 => Fields r b1 w2 b2
        | B1 => Fields w1 r w2 b2
        | W2 => Fields w1 b1 r b2
        | B2 => Fields w1 b1 w2 r
        end
  | _ => h
  end.

(** Two heaps that differ at most in objects with fields hold the same
    arrays. *)
Definition same_arrays (h h' : heap) : Prop :=
  forall r, cell h' r = cell h r
            \/ (exists a b c d, cell h' r = Some (Fields a b c d))
               /\ (cell h r = None \/ exists a b c d, cell h r = Some (Fields a b c d)).

(** A heap with one agent of hidden width 1: the agent at 0, [w1] at 1
    with its rows at 5 to 8, [b1] at 2, [w2] at 3 with its row at 9,
    [b2] at 4. *)
Definition sample_heap : heap :=
  mkHeap
    (fun r =>
       match r with
       | 0 => Some (Fields 1 2 3 4)
       | 1 => Some (Rows [5; 6; 7; 8])
       | 2 => Some (Numbers [0%float])
       | 3 => Some (Rows [9])
       | 4 => Some (Numbers [0%float; 0%float])
       | 5 | 6 | 7 | 8 => Some (Numbers [0.1%float])
       | 9 => Some (Numbers [0.3%float; (-0.3)%float])
       | _ => None
       end)
    10.

End Aliasing.

(** ** Sample agents *)

Module Samples.

Import JSNumber JSArray Types Agent.
Local Open Scope float_scope.

(** Two hidden units and an episode with the given rewards. *)
Definition sample_agent (rewards : list number) : PolicyGradientAgent :=
  mkAgent 2 0.01 0.99
    [[0.1; 0.2]; [0.3; -0.1]; [0.2; 0.2]; [-0.3; 0.1]] [0; 0]
    [[0.1; -0.2]; [0.3; 0.4]] [0; 0]
    (map (fun _ => [0.01; 0.02; -0.01; 0.03]) rewards)
    (map (fun _ => [0.5; -0.5]) rewards)
    (map (fun _ => [0.4; 0.6]) rewards)
    (map (fun _ => 1) rewards)
    rewards.

(** An episode of three steps with the rewards 0, 0, 0.1 and the
    discount 1: every return is 0.1.  (The driver stores no such episode:
    the reward of [step] is always 1.) *)
Definition identical_returns_episode : PolicyGradientAgent :=
  mkAgent 1 0.01 1 [[0]; [0]; [0]; [0]] [0] [[0; 0]] [0; 0]
    [[0; 0; 0; 0]; [0; 0; 0; 0]; [0; 0; 0; 0]] [[0]; [0]; [0]]
    [[0.5; 0.5]; [0.5; 0.5]; [0.5; 0.5]] [0; 1; 0] [0; 0; 0.1].

(** An episode of three steps with the rewards 1, as the driver stores
    them, and a discount so small that every return is 1. *)
Definition flat_returns_episode : PolicyGradientAgent :=
  mkAgent 1 0.01 0x1p-60 [[0]; [0]; [0]; [0]] [0] [[0; 0]] [0; 0]
    [[0; 0; 0; 0]; [0; 0; 0; 0]; [0; 0; 0; 0]] [[0]; [0]; [0]]
    [[0.5; 0.5]; [0.5; 0.5]; [0.5; 0.5]] [0; 1; 0] [1; 1; 1].

(** Stand-ins for [Math.tanh] and [Math.exp] where a statement has to be
    run: any functions will do, the results hold for all of them. *)
Definition sample_tanh (v : number) : number := v / (1 + abs v).
Definition sample_exp (v : number) : number := 1 + v + v * v / 2.

(** Stand-ins for [Math.cos] and [Math.sin], likewise. *)
Definition sample_cos (v : number) : number := 1 - v * v / 2.
Definition sample_sin (v : number) : number := v.

End Samples.

(** ** More of [Math] *)

Module JSMath.

Import JSNumber.
Local Open Scope float_scope.

(** [Math.abs]. *)
Definition Math_abs (v : number) : number := abs v.

(** [Math.min] of two numbers: [NaN] if either is, [-0] below [+0]. *)
Definition min2 (a b : number) : number :=
  if is_nan a || is_nan b then nan
  else if a <? b then a
  else if b <? a then b
  else if get_sign a then a else b.

(** [Math.min(...l)]; [Infinity] for no argument. *)
Definition Math_min (l : list number) : number := fold_left min2 l infinity.

End JSMath.

(** ** Binary64 numbers that are integers *)

Module Binary64.

Import JSNumber.

(** A mantissa shifted left by [n] bits. *)
Definition shl (p : positive) (n : nat) : positive := Nat.iter n xO p.

(** The binary64 number of value [p], for [p] below 2^53: the mantissa
    is [p] shifted to 53 bits. *)
Definition int_float (p : positive) : spec_float :=
  let d := Z.pos (digits2_pos p) in
  S754_finite false (shl p (Z.to_nat (53 - d))) (d - 53).

(** A number that is not [NaN]; a number that is not [NaN] and has the
    sign bit clear. *)
Definition numeric (v : number) : Prop := Prim2SF v <> S754_nan.

Definition nonneg (v : number) : Prop :=
  match Prim2SF v with
  | S754_zero s | S754_infinity s | S754_finite s _ _ => s = false
  | S754_nan => False
  end.

End Binary64.

(** ** A run of [step] calls on one environment *)

Module Episode.

Import JSNumber Types CartPole.
Local Open Scope float_scope.

Section Run.

Variables Math_cos Math_sin : number -> number.

(** [env.step(a)] for each [a] of [actions] in turn, with no [reset]
    between: the last [this.state] and the [done] flags returned. *)
Fixpoint steps (actions : list number) (state : CartPoleState)
  : CartPoleState * list bool :=
  match actions with
  | [] => (state, [])
  | action :: rest =>
      let r := step Math_cos Math_sin state action in
      let r' := steps rest (fst r) in
      (fst r', done (snd r) :: snd r')
  end.

End Run.

End Episode.

(** ** [App.tsx]: the simulation loop and the handlers *)

Module App.

Import JSNumber JSArray Types CartPole MathTs Agent.
Local Open Scope float_scope.

(** [TrainingMetrics] of [types.ts]. *)
Record TrainingMetrics := mkMetrics {
  episode : number;
  score : number;
  bestScore : number;
  avgScore : number
}.

(** [agentSettings]. *)
Record Settings := mkSettings {
  settings_hiddenSize : nat;
  settings_learningRate : number;
  settings_gamma : number
}.

(** [const stepsPerFrame = speedRef.current === 1 ? 1 :
    (speedRef.current === 2 ? 5 : 20)]. *)
Definition stepsPerFrame (speed : number) : nat :=
  if strict_eq speed 1 then 1%nat
  else if strict_eq speed 2 then 5%nat else 20%nat.

(** [toggleSpeed]: the next value of [speed]. *)
Definition toggleSpeed (speed : number) : number :=
  if strict_eq speed 1 then 2 else if strict_eq speed 2 then 3 else 1.

(** [h[h.length - 1]], when [h.length > 0]. *)
Fixpoint last_entry (h : list TrainingMetrics) : option TrainingMetrics :=
  match h with
  | [] => None
  | [e] => Some e
  | _ :: t => last_entry t
  end.

(** [newEntry] of the updater passed to [setMetricsHistory]; [score] is
    [agent.episodeRewards.length]. *)
Definition newEntry (h : list TrainingMetrics) (newCount : number)
    (score : nat) : TrainingMetrics :=
  mkMetrics newCount (of_length score)
    (Math_max [of_length score;
               match last_entry h with Some e => bestScore e | None => 0 end])
    (match last_entry h with
     | None => of_length score
     | Some e => avgScore e * 0.9 + of_length score * 0.1
     end).

(** The updater itself: [h => [...h, newEntry]]. *)
Definition pushEntry (newCount : number) (score : nat)
    (h : list TrainingMetrics) : list TrainingMetrics :=
  h ++ [newEntry h newCount score].

(** The statistics that the loop updates when an episode ends. *)
Record Stats := mkStats {
  lastScore : number;
  bestScoreSoFar : number;
  episodeCount : number;
  metricsHistory : list TrainingMetrics
}.

(** [setLastScore(score); setBestScore(prev => Math.max(prev, score));
    setEpisodeCount(prev => ...)], each updater being run once. *)
Definition episodeEnd (st : Stats) (score : nat) : Stats :=
  let newCount := episodeCount st + 1 in
  mkStats (of_length score)
    (Math_max [bestScoreSoFar st; of_length score])
    newCount
    (pushEntry newCount score (metricsHistory st)).

Definition initialStats : Stats := mkStats 0 0 0 [].

(** [envRef.current] and [agentRef.current]. *)
Record Sim := mkSim {
  env : CartPoleState;
  agent : PolicyGradientAgent
}.

(** What one call of the loop callback [step] leaves: the two objects,
    the locals [frameState], [frameDone], [frameActs] that it hands to the
    display, and the score when an episode has ended. *)
Record Frame := mkFrame {
  sim : Sim;
  frameState : CartPoleState;
  frameDone : bool;
  frameActs : LayerActivations;
  ended : option nat
}.

Section Loop.

Variables Math_cos Math_sin Math_tanh Math_exp : number -> number.

(** The values of [Math.random()]: in [predict] at iteration [i], and the
    four of [env.reset()] if the episode ends there. *)
Variable random : nat -> number.
Variable resetDraws : nat -> number * number * number * number.

(** [for (let i = 0; i < stepsPerFrame; i++) { ... if (done) { ...;
    break; } }]: [n] iterations are left, [i] is the loop variable. *)
Fixpoint frameLoop (n i : nat) (f : Frame) : Frame :=
  match n with
  | O => f
  | S n' =>
      let p := predict Math_tanh Math_exp (agent (sim f)) (env (sim f))
                 (random i) in
      let action := fst (snd p) in
      let currActs := snd (snd p) in
      let r := step Math_cos Math_sin (env (sim f)) action in
      let agent2 := storeStep (fst p) currActs action (reward (snd r)) in
      if done (snd r) then
        let score := List.length (episodeRewards agent2) in
        let d := resetDraws i in
        mkFrame
          (mkSim (reset (fst (fst (fst d))) (snd (fst (fst d)))
                        (snd (fst d)) (snd d))
                 (train agent2))
          (nextState (snd r)) true currActs (Some score)
      else
        frameLoop n' (S i)
          (mkFrame (mkSim (fst r) agent2) (nextState (snd r)) false currActs
                   None)
  end.

(** The simulation part of the loop callback, for the current [speed]. *)
Definition frame (speed : number) (s : Sim) : Frame :=
  frameLoop (stepsPerFrame speed) 0
    (mkFrame s (env s) false (mkActivations [] [] []) None).

End Loop.

(** The part of the component state that the two handlers below compute
    with. *)
Record AppState := mkAppState {
  agentSettings : Settings;
  agentRef : PolicyGradientAgent;
  envRef : CartPoleState;
  isRunning : bool;
  stats : Stats
}.

Definition agentOf (draw1 draw2 : nat -> nat -> number) (s : Settings)
  : PolicyGradientAgent :=
  new_agent draw1 draw2 (settings_hiddenSize s) (settings_learningRate s)
    (settings_gamma s).

(** [handleReset]: a new agent from the current settings, two
    [env.reset()] calls ([d] holds the draws of the second), cleared
    statistics. *)
Definition handleReset (draw1 draw2 : nat -> nat -> number)
    (d : number * number * number * number) (st : AppState) : AppState :=
  mkAppState (agentSettings st)
    (agentOf draw1 draw2 (agentSettings st))
    (reset (fst (fst (fst d))) (snd (fst (fst d))) (snd (fst d)) (snd d))
    false initialStats.

(** [handleSettingsChange(newSettings)]. *)
Definition handleSettingsChange (draw1 draw2 : nat -> nat -> number)
    (d : number * number * number * number) (newSettings : Settings)
    (st : AppState) : AppState :=
  let oldSettings := agentSettings st in
  if negb (Nat.eqb (settings_hiddenSize newSettings)
                   (settings_hiddenSize oldSettings)) then
    mkAppState newSettings (agentOf draw1 draw2 newSettings)
      (reset (fst (fst (fst d))) (snd (fst (fst d))) (snd (fst d)) (snd d))
      false initialStats
  else
    let a := agentRef st in
    mkAppState newSettings
      (mkAgent (hiddenSize a) (settings_learningRate newSettings)
         (settings_gamma newSettings) (w1 a) (b1 a) (w2 a) (b2 a)
         (episodeStates a) (episodeHiddens a) (episodeProbs a)
         (episodeActions a) (episodeRewards a))
      (envRef st) (isRunning st) (stats st).

(** The state with which the component starts: the default settings and
    an agent built with the defaults of the class. *)
Definition initialSettings : Settings := mkSettings 16 0.01 0.99.

Definition initialState (draw1 draw2 : nat -> nat -> number)
    (d : number * number * number * number) : AppState :=
  mkAppState initialSettings (new_agent draw1 draw2 16 0.01 0.99)
    (reset (fst (fst (fst d))) (snd (fst (fst d))) (snd (fst d)) (snd d))
    false initialStats.

End App.

(** ** [components/NetworkVisualizer.tsx]: what the component computes *)

Module NetworkVisualizer.

Import JSNumber JSArray Types JSMath.
Local Open Scope float_scope.

Inductive color := blue | red.

(** [const getOpacity = (val) => Math.min(Math.abs(val) * 0.8, 1)]. *)
Definition getOpacity (val : number) : number :=
  Math_min [Math_abs val * 0.8; 1].

(** [const getColor = (val) => (val > 0 ? '#3b82f6' : '#ef4444')]. *)
Definition getColor (val : number) : color :=
  if 0 <? val then blue else red.

Record Node := mkNode {
  node_x : number;
  node_y : number;
  val : number
}.

(** The computed attributes of a [<line>]. *)
Record Line := mkLine {
  x1 : number;
  y1 : number;
  x2 : number;
  y2 : number;
  stroke : color;
  strokeOpacity : number
}.

(** The sizes written in [ls]: the hidden layer is drawn with 16 nodes
    whatever the width of the network. *)
Definition inputNodes : nat := 4.
Definition hiddenNodes : nat := 16.
Definition outputNodes : nat := 2.

Section Render.

Variables width height : number.

Definition layerGap : number := width / 3.
Definition startX : number := 40.
Definition availableHeight : number := height - 60.

(** The [nodes] of the layer [l] of index [lIdx], of size [size] and
    activations [acts]. *)
Definition nodes (lIdx size : nat) (acts : list number) : list Node :=
  let spacing := availableHeight / js_or (of_length size - 1) 1 in
  let x := startX + of_length lIdx * layerGap in
  let totalH := (of_length size - 1) * spacing in
  let offsetY := (height - totalH) / 2 in
  map (fun nIdx =>
         mkNode x
           (if Nat.eqb size 1 then height / 2
            else offsetY + of_length nIdx * spacing)
           (js_or (get acts nIdx) 0))
      (seq 0 size).

(** [layers]: input, hidden, output. *)
Definition layers (activations : LayerActivations) : list (list Node) :=
  [nodes 0 inputNodes (input activations);
   nodes 1 hiddenNodes (hidden activations);
   nodes 2 outputNodes (output activations)].

(** [None] stands for the TypeError of [w[i][j]] when the row [w[i]] is
    [undefined]. *)
Fixpoint all_some {A : Type} (l : list (option A)) : option (list A) :=
  match l with
  | [] => Some []
  | None :: _ => None
  | Some a :: t =>
      match all_some t with
      | Some t' => Some (a :: t')
      | None => None
      end
  end.

(** The line from node [i] of one layer to node [j] of the next, with
    [const w = weights.w[i][j]]; a missing cell is [undefined], which
    [getColor] and [getOpacity] read as [NaN]. *)
Definition line (w : list (list number)) (i j : nat) (src dst : Node)
  : option Line :=
  match nth_error w i with
  | None => None
  | Some row =>
      let wij := get row j in
      Some (mkLine (node_x src) (node_y src) (node_x dst) (node_y dst)
                   (getColor wij) (getOpacity wij))
  end.

(** [srcs.map((src, i) => dsts.map((dst, j) => <line ... />))]. *)
Definition connections (w : list (list number)) (srcs dsts : list Node)
  : option (list (list Line)) :=
  all_some
    (mapi (fun src i => all_some (mapi (fun dst j => line w i j src dst) dsts))
          srcs).

(** The two groups of connections of the returned [<svg>], from
    [weights.w1] and [weights.w2]. *)
Definition render (w1 w2 : list (list number))
    (activations : LayerActivations)
  : option (list (list Line) * list (list Line)) :=
  let ls := layers activations in
  match connections w1 (nth 0 ls []) (nth 1 ls []) with
  | None => None
  | Some c1 =>
      match connections w2 (nth 1 ls []) (nth 2 ls []) with
      | None => None
      | Some c2 => Some (c1, c2)
      end
  end.

End Render.

End NetworkVisualizer.

(** ** Call sequences on an agent *)

Module Calls.

Import JSNumber Types Agent.

(** The number of [storeStep] calls since the last [train], for a buffer
    that held [n] steps before the calls. *)
Definition pending (calls : list call) (n : nat) : nat :=
  fold_left (fun k c => match c with StoreStep _ _ _ => S k | Train => O end)
            calls n.

End Calls.

(** ** What the loop keeps true of the agent *)

Module LoopInvariant.

Import JSNumber JSArray Types Agent.
Local Open Scope float_scope.

(** The entries of the buffer are activations of this network, actions
    0 or 1 and rewards 1. *)
Definition shapes_ok (a : PolicyGradientAgent) : Prop :=
  Forall (fun s => List.length s = inputSize) (episodeStates a)
  /\ Forall (fun h => List.length h = hiddenSize a) (episodeHiddens a)
  /\ Forall (fun p => List.length p = outputSize) (episodeProbs a)
  /\ Forall (fun v => v = 0 \/ v = 1) (episodeActions a)
  /\ Forall (fun r => r = 1) (episodeRewards a).

Definition agent_ok (a : PolicyGradientAgent) : Prop :=
  wf_agent a /\ aligned a /\ shapes_ok a.

End LoopInvariant.

(** ** The events of the component and what they keep true *)

Module AppEvents.

Import JSNumber JSArray Types CartPole MathTs Agent App LoopInvariant.
Local Open Scope float_scope.

(** A history in which every best score is a number, is not below the
    score of its episode, and is not below the best score before it. *)
Inductive history_ok : list TrainingMetrics -> Prop :=
| history_nil : history_ok []
| history_snoc (h : list TrainingMetrics) (e : TrainingMetrics) :
    history_ok h ->
    is_nan (bestScore e) = false ->
    (score e <=? bestScore e) = true ->
    (forall p, last_entry h = Some p -> (bestScore p <=? bestScore e) = true) ->
    history_ok (h ++ [e]).

(** The agent is well formed, it has the hidden width of the settings,
    and the history is in order. *)
Definition app_ok (st : AppState) : Prop :=
  agent_ok (agentRef st)
  /\ hiddenSize (agentRef st) = settings_hiddenSize (agentSettings st)
  /\ history_ok (metricsHistory (stats st)).

Section Events.

Variables Math_cos Math_sin Math_tanh Math_exp : number -> number.

(** A click on the reset button, a saved change of the settings, or one
    call of the loop callback, each with the values that [Math.random()]
    returns during it. *)
Inductive event :=
| Reset (draw1 draw2 : nat -> nat -> number)
        (d : number * number * number * number)
| SettingsChange (draw1 draw2 : nat -> nat -> number)
        (d : number * number * number * number) (newSettings : Settings)
| Tick (speed : number) (random : nat -> number)
       (resetDraws : nat -> number * number * number * number).

(** One call of the loop callback on the component state: the
    simulation, then the statistics if an episode has ended. *)
Definition tick (speed : number) (random : nat -> number)
    (resetDraws : nat -> number * number * number * number) (st : AppState)
  : AppState :=
  let f := frame Math_cos Math_sin Math_tanh Math_exp random resetDraws speed
             (mkSim (envRef st) (agentRef st)) in
  mkAppState (agentSettings st) (agent (sim f)) (env (sim f)) (isRunning st)
    (match ended f with
     | Some score => episodeEnd (stats st) score
     | None => stats st
     end).

Definition handle (st : AppState) (e : event) : AppState :=
  match e with
  | Reset draw1 draw2 d => handleReset draw1 draw2 d st
  | SettingsChange draw1 draw2 d newSettings =>
      handleSettingsChange draw1 draw2 d newSettings st
  | Tick speed random resetDraws => tick speed random resetDraws st
  end.

End Events.

End AppEvents.

(** ** Facts on numbers *)

Module JSNumberFacts.

Import JSNumber.
Local Open Scope float_scope.

Lemma SFadd_comm (p e : Z) (a b : spec_float) : SFadd p e a b = SFadd p e b a.
Proof.
  destruct a as [sa|sa| |sa ma ea], b as [sb|sb| |sb mb eb]; simpl;
    try reflexivity; try (destruct sa, sb; reflexivity).
  rewrite (Z.min_comm ea eb), Z.add_comm. reflexivity.
Qed.

Lemma SFmul_comm (p e : Z) (a b : spec_float) : SFmul p e a b = SFmul p e b a.
Proof.
  destruct a as [sa|sa| |sa ma ea], b as [sb|sb| |sb mb eb]; simpl;
    try reflexivity; try (rewrite xorb_comm; reflexivity).
  rewrite xorb_comm, Pos.mul_comm, Z.add_comm. reflexivity.
Qed.

Lemma add_comm (a b : number) : a + b = b + a.
Proof. apply Prim2SF_inj. rewrite !add_spec. apply SFadd_comm. Qed.

Lemma mul_comm (a b : number) : a * b = b * a.
Proof. apply Prim2SF_inj. rewrite !mul_spec. apply SFmul_comm. Qed.

(** The representation of a zero, and of a finite number. *)
Lemma is_zero_inv (v : number) :
  is_zero v = true -> exists s, Prim2SF v = S754_zero s.
Proof.
  unfold is_zero. rewrite FloatAxioms.eqb_spec.
  change (Prim2SF zero) with (S754_zero false).
  destruct (Prim2SF v) as [s|s| |s m e]; try destruct s; simpl;
    try discriminate; intros _; eexists; reflexivity.
Qed.

Lemma is_zero_intro (v : number) (s : bool) :
  Prim2SF v = S754_zero s -> is_zero v = true.
Proof.
  intros E. unfold is_zero. rewrite FloatAxioms.eqb_spec, E. reflexivity.
Qed.

Lemma is_nan_intro (v : number) : Prim2SF v = S754_nan -> is_nan v = true.
Proof.
  intros E. unfold is_nan. rewrite FloatAxioms.eqb_spec, E. reflexivity.
Qed.

Lemma is_finite_inv (v : number) :
  is_finite v = true ->
  (exists s, Prim2SF v = S754_zero s)
  \/ (exists s m e, Prim2SF v = S754_finite s m e).
Proof.
  unfold is_finite, is_nan, is_infinity.
  rewrite !FloatAxioms.eqb_spec, abs_spec.
  change (Prim2SF infinity) with (S754_infinity false).
  destruct (Prim2SF v) as [s|s| |s m e]; try destruct s; simpl;
    try discriminate; intros _.
  all: try (left; eexists; reflexivity).
  all: right; do 3 eexists; reflexivity.
Qed.

Lemma pos_finite_inv (v : number) :
  (0 <? v) = true -> (v <? infinity) = true ->
  exists m e, Prim2SF v = S754_finite false m e.
Proof.
  rewrite !ltb_spec.
  change (Prim2SF infinity) with (S754_infinity false).
  change (Prim2SF 0) with (S754_zero false).
  destruct (Prim2SF v) as [s|s| |s m e]; try destruct s; simpl;
    try discriminate; intros _ _.
  do 2 eexists; reflexivity.
Qed.

(** A positive finite number times [+0] is [+0]. *)
Lemma mul_pos_zero (v : number) :
  (0 <? v) = true -> (v <? infinity) = true -> v * 0 = 0.
Proof.
  intros H1 H2. destruct (pos_finite_inv v H1 H2) as (m & e & E).
  apply Prim2SF_inj. rewrite mul_spec, E. reflexivity.
Qed.

(** Subtracting [+0] changes no number (nor [-0], nor [NaN]). *)
Lemma sub_zero (v : number) : v - 0 = v.
Proof.
  apply Prim2SF_inj. rewrite sub_spec.
  change (Prim2SF 0) with (S754_zero false).
  destruct (Prim2SF v) as [s|s| |s m e]; try destruct s; reflexivity.
Qed.

(** [0 * g + r] is [r] when [g] is finite, up to the sign of a zero. *)
Lemma zero_mul_add (g r : number) :
  is_finite g = true -> same_value_zero (0 * g + r) r.
Proof.
  intros Hg.
  assert (Z : exists s, Prim2SF (0 * g) = S754_zero s).
  { rewrite mul_spec. change (Prim2SF 0) with (S754_zero false).
    destruct (is_finite_inv g Hg) as [(s & E)|(s & m & e & E)]; rewrite E;
      eexists; reflexivity. }
  destruct Z as (s & Z).
  destruct (Prim2SF r) as [sr|sr| |sr mr er] eqn:R.
  - right. rewrite FloatAxioms.eqb_spec, add_spec, Z, R.
    destruct s, sr; reflexivity.
  - left. apply Prim2SF_inj. rewrite add_spec, Z, R. reflexivity.
  - left. apply Prim2SF_inj. rewrite add_spec, Z, R. reflexivity.
  - left. apply Prim2SF_inj. rewrite add_spec, Z, R. reflexivity.
Qed.

(** The square of a zero is [+0], and [+0 + +0] is [+0]. *)
Lemma pow2_zero (v : number) : is_zero v = true -> 0 + Math_pow2 v = 0.
Proof.
  intros H. destruct (is_zero_inv v H) as (s & E).
  apply Prim2SF_inj. unfold Math_pow2. rewrite add_spec, mul_spec, E.
  destruct s; reflexivity.
Qed.

(** [sqrt (0 / n)] is a zero or [NaN], whatever [n] is: it is falsy. *)
Lemma sqrt_zero_div_falsy (n : number) : truthy (Math_sqrt (0 / n)) = false.
Proof.
  unfold truthy, Math_sqrt.
  assert (H : (exists s, Prim2SF (sqrt (0 / n)) = S754_zero s)
              \/ Prim2SF (sqrt (0 / n)) = S754_nan).
  { rewrite sqrt_spec, div_spec. change (Prim2SF 0) with (S754_zero false).
    destruct (Prim2SF n) as [s|s| |s m e]; try destruct s; simpl;
      try (right; reflexivity); left; eexists; reflexivity. }
  destruct H as [(s & E)|E].
  - rewrite (is_zero_intro _ _ E). reflexivity.
  - rewrite (is_nan_intro _ E), orb_true_r. reflexivity.
Qed.

(** A zero divided by 1 is a zero. *)
Lemma zero_div_one (v : number) : is_zero v = true -> is_zero (v / 1) = true.
Proof.
  intros H. destruct (is_zero_inv v H) as (s & E).
  apply (is_zero_intro _ (xorb s false)).
  rewrite div_spec, E. reflexivity.
Qed.

Lemma is_zero_not_nan (v : number) : is_zero v = true -> is_nan v = false.
Proof.
  intros H. destruct (is_zero_inv v H) as (s & E).
  unfold is_nan. rewrite FloatAxioms.eqb_spec, E. reflexivity.
Qed.

End JSNumberFacts.

(** ** [Math.max] is the maximum *)

Module MaxFacts.

Import JSNumber JSNumberFacts.
Local Open Scope float_scope.

Definition sf_not_nan (a : spec_float) : Prop := a <> S754_nan.

Lemma cmp_lex_refl (e : Z) (m : positive) :
  match (e ?= e)%Z with
  | Eq => Pos.compare_cont Eq m m
  | Lt => Lt
  | Gt => Gt
  end = Eq.
Proof.
  rewrite Z.compare_refl. apply Pos.compare_cont_refl.
Qed.

Lemma SFleb_refl (a : spec_float) : a <> S754_nan -> SFleb a a = true.
Proof.
  unfold SFleb, SFcompare.
  destruct a as [s|s| |s m e]; try destruct s; intros H; try reflexivity;
    try (exfalso; apply H; reflexivity).
  - rewrite Z.compare_refl, Pos.compare_cont_refl. reflexivity.
  - rewrite Z.compare_refl, Pos.compare_cont_refl. reflexivity.
Qed.

Ltac lex_cases :=
  repeat match goal with
  | |- context [(?a ?= ?b)%Z] => destruct (Z.compare_spec a b)
  | |- context [Pos.compare_cont Eq ?a ?b] =>
      change (Pos.compare_cont Eq a b) with (Pos.compare a b);
      destruct (Pos.compare_spec a b)
  | H : context [(?a ?= ?b)%Z] |- _ => destruct (Z.compare_spec a b)
  | H : context [Pos.compare_cont Eq ?a ?b] |- _ =>
      change (Pos.compare_cont Eq a b) with (Pos.compare a b) in H;
      destruct (Pos.compare_spec a b)
  end.

Lemma SFleb_trans (a b c : spec_float) :
  SFleb a b = true -> SFleb b c = true -> SFleb a c = true.
Proof.
  unfold SFleb, SFcompare.
  destruct a as [sa|sa| |sa ma ea], b as [sb|sb| |sb mb eb],
    c as [sc|sc| |sc mc ec];
    try destruct sa; try destruct sb; try destruct sc;
    cbn [CompOpp]; try discriminate; try reflexivity.
  all: intros H1 H2; lex_cases; cbn [CompOpp] in *;
    try discriminate; try reflexivity; exfalso; lia.
Qed.

(** With no [NaN], [a <? b = false] means [b <= a]. *)
Lemma SFltb_false_leb (a b : spec_float) :
  a <> S754_nan -> b <> S754_nan -> SFltb a b = false -> SFleb b a = true.
Proof.
  unfold SFltb, SFleb, SFcompare.
  destruct a as [sa|sa| |sa ma ea], b as [sb|sb| |sb mb eb];
    try destruct sa; try destruct sb; intros Ha Hb;
    cbn [CompOpp]; try discriminate; try reflexivity;
    try (exfalso; apply Ha; reflexivity); try (exfalso; apply Hb; reflexivity).
  all: intros H; lex_cases; cbn [CompOpp] in *;
    try discriminate; try reflexivity; exfalso; lia.
Qed.

Lemma SFltb_leb (a b : spec_float) : SFltb a b = true -> SFleb a b = true.
Proof.
  unfold SFltb, SFleb. destruct (SFcompare a b) as [[| |]|]; try discriminate;
    reflexivity.
Qed.

Lemma not_nan_inv (a : number) : is_nan a = false -> Prim2SF a <> S754_nan.
Proof.
  intros H E. rewrite (is_nan_intro a E) in H. discriminate H.
Qed.

Lemma leb_refl (a : number) : is_nan a = false -> (a <=? a) = true.
Proof.
  intros H. rewrite leb_spec. apply SFleb_refl, not_nan_inv, H.
Qed.

Lemma leb_trans (a b c : number) :
  (a <=? b) = true -> (b <=? c) = true -> (a <=? c) = true.
Proof.
  rewrite !leb_spec. apply SFleb_trans.
Qed.

Lemma leb_not_nan (a b : number) : (a <=? b) = true -> is_nan b = false.
Proof.
  rewrite leb_spec. unfold is_nan. rewrite FloatAxioms.eqb_spec.
  unfold SFleb, SFeqb.
  destruct (Prim2SF a) as [sa|sa| |sa ma ea], (Prim2SF b) as [sb|sb| |sb mb eb];
    try destruct sb; cbn; try discriminate; intros _; try reflexivity.
  all: rewrite Z.compare_refl, Pos.compare_cont_refl; reflexivity.
Qed.

(** [Math.max] of two numbers, none of them [NaN]: one of the two, and
    not below either. *)
Lemma max2_spec (a b : number) :
  is_nan a = false -> is_nan b = false ->
  (max2 a b = a \/ max2 a b = b)
  /\ (a <=? max2 a b) = true /\ (b <=? max2 a b) = true.
Proof.
  intros Ha Hb. unfold max2. rewrite Ha, Hb. cbn [orb].
  pose proof (not_nan_inv a Ha) as Na. pose proof (not_nan_inv b Hb) as Nb.
  destruct (a <? b) eqn:Eab.
  - split; [right; reflexivity|]. split; [|apply leb_refl, Hb].
    rewrite leb_spec. apply SFltb_leb. rewrite <- ltb_spec. exact Eab.
  - assert (Lba : (b <=? a) = true).
    { rewrite leb_spec. apply SFltb_false_leb; [exact Na|exact Nb|].
      rewrite <- ltb_spec. exact Eab. }
    destruct (b <? a) eqn:Eba.
    + split; [left; reflexivity|]. split; [apply leb_refl, Ha|exact Lba].
    + assert (Lab : (a <=? b) = true).
      { rewrite leb_spec. apply SFltb_false_leb; [exact Nb|exact Na|].
        rewrite <- ltb_spec. exact Eba. }
      destruct (get_sign a).
      * split; [right; reflexivity|]. split; [exact Lab|apply leb_refl, Hb].
      * split; [left; reflexivity|]. split; [apply leb_refl, Ha|exact Lba].
Qed.

Lemma fold_max2_spec (l : list number) :
  forall acc : number,
  is_nan acc = false ->
  Forall (fun v => is_nan v = false) l ->
  let r := fold_left max2 l acc in
  (r = acc \/ In r l)
  /\ (acc <=? r) = true
  /\ Forall (fun v => (v <=? r) = true) l.
Proof.
  induction l as [|v l IH]; intros acc Hacc Hl; cbn [fold_left].
  - split; [left; reflexivity|]. split; [apply leb_refl, Hacc|constructor].
  - inversion Hl as [|? ? Hv Hl']; subst.
    destruct (max2_spec acc v Hacc Hv) as (Hor & Hle1 & Hle2).
    assert (Hm : is_nan (max2 acc v) = false) by (apply (leb_not_nan _ _ Hle1)).
    destruct (IH (max2 acc v) Hm Hl') as (Hin & Hle & Hall).
    split; [|split].
    + destruct Hin as [E|Hin]; [|right; right; exact Hin].
      rewrite E. destruct Hor as [->| ->]; [left; reflexivity|right; left; reflexivity].
    + apply (leb_trans _ _ _ Hle1 Hle).
    + constructor; [apply (leb_trans _ _ _ Hle2 Hle)|exact Hall].
Qed.

(** [Math.max(...l)], no element being [NaN]: not below any element, and
    one of them (or [-Infinity], which only the empty list needs). *)
Lemma Math_max_is_maximum (l : list number) :
  Forall (fun v => is_nan v = false) l ->
  Forall (fun v => (v <=? Math_max l) = true) l
  /\ (Math_max l = neg_infinity \/ In (Math_max l) l).
Proof.
  intros H. destruct (fold_max2_spec l neg_infinity eq_refl H) as (Hin & _ & Hall).
  split; [exact Hall|exact Hin].
Qed.

End MaxFacts.

(** ** More facts on numbers *)

Module RoundingFacts.

Import JSNumber JSMath JSNumberFacts MaxFacts.
Local Open Scope float_scope.

(** A rounded result that is not [NaN] and has the sign [s]. *)
Definition signed (s : bool) (r : spec_float) : Prop :=
  match r with
  | S754_zero s' | S754_infinity s' | S754_finite s' _ _ => s' = s
  | S754_nan => False
  end.

Lemma shr_1_nonneg (mrs : shr_record) :
  (0 <= shr_m mrs)%Z -> (0 <= shr_m (shr_1 mrs))%Z.
Proof.
  destruct mrs as [m r s]. destruct m as [|[p|p|]|[p|p|]]; simpl; lia.
Qed.

Lemma iter_shr_1_nonneg (n : positive) :
  forall mrs, (0 <= shr_m mrs)%Z -> (0 <= shr_m (SpecFloat.iter_pos shr_1 n mrs))%Z.
Proof.
  induction n as [n IH|n IH|]; intros mrs H; simpl.
  - apply IH, IH, shr_1_nonneg, H.
  - apply IH, IH, H.
  - apply shr_1_nonneg, H.
Qed.

Lemma shr_fexp_nonneg (p e m ex : Z) (l : location) :
  (0 <= m)%Z -> (0 <= shr_m (fst (shr_fexp p e m ex l)))%Z.
Proof.
  intros H. unfold shr_fexp, shr.
  assert (H0 : (0 <= shr_m (shr_record_of_loc m l))%Z)
    by (destruct l as [|[| |]]; exact H).
  destruct (fexp p e (Zdigits2 m + ex) - ex)%Z; simpl; try exact H0.
  apply iter_shr_1_nonneg, H0.
Qed.

Lemma round_nearest_even_nonneg (m : Z) (l : location) :
  (0 <= m)%Z -> (0 <= round_nearest_even m l)%Z.
Proof.
  intros H. destruct l as [|[| |]]; simpl; try lia.
  destruct (Z.even m); lia.
Qed.

(** Rounding a non-negative mantissa gives a zero, a finite number or an
    infinity of the requested sign, never [NaN]. *)
Lemma binary_round_aux_signed (p e : Z) (s : bool) (m ex : Z) (l : location) :
  (0 <= m)%Z -> signed s (binary_round_aux p e s m ex l).
Proof.
  intros H. unfold binary_round_aux.
  pose proof (shr_fexp_nonneg p e m ex l H) as H1.
  destruct (shr_fexp p e m ex l) as [mrs' e'].
  cbn [fst] in H1.
  pose proof (shr_fexp_nonneg p e _ e' loc_Exact
                (round_nearest_even_nonneg _ (loc_of_shr_record mrs') H1))
    as H2.
  destruct (shr_fexp p e (round_nearest_even (shr_m mrs')
                            (loc_of_shr_record mrs')) e' loc_Exact)
    as [mrs'' e''].
  cbn [fst] in H2.
  destruct (shr_m mrs'') as [|q|q]; simpl.
  - reflexivity.
  - destruct (e'' <=? e - p)%Z; reflexivity.
  - lia.
Qed.

Lemma binary_round_signed (p e : Z) (s : bool) (m : positive) (ex : Z) :
  signed s (binary_round p e s m ex).
Proof.
  unfold binary_round.
  destruct (shl_align m ex (fexp p e (Z.pos (digits2_pos m) + ex))) as [mz ez].
  apply binary_round_aux_signed. lia.
Qed.

Lemma signed_not_nan (s : bool) (r : spec_float) :
  signed s r -> r <> S754_nan.
Proof.
  intros H E. rewrite E in H. exact H.
Qed.

Lemma SFeqb_refl (a : spec_float) : a <> S754_nan -> SFeqb a a = true.
Proof.
  unfold SFeqb, SFcompare.
  destruct a as [s|s| |s m e]; try destruct s; intros H; try reflexivity;
    try (exfalso; apply H; reflexivity).
  all: rewrite Z.compare_refl, Pos.compare_cont_refl; reflexivity.
Qed.

Lemma not_nan_intro (v : number) : Prim2SF v <> S754_nan -> is_nan v = false.
Proof.
  intros H. unfold is_nan. rewrite FloatAxioms.eqb_spec.
  rewrite (SFeqb_refl (Prim2SF v) H). reflexivity.
Qed.

(** An array length as a number is never [NaN]. *)
Lemma of_length_not_nan (n : nat) : is_nan (of_length n) = false.
Proof.
  apply not_nan_intro. unfold of_length. rewrite of_uint63_spec.
  unfold binary_normalize.
  destruct (Uint63.to_Z (Uint63.of_Z (Z.of_nat n))) as [|q|q].
  - discriminate.
  - apply (signed_not_nan false), binary_round_signed.
  - apply (signed_not_nan true), binary_round_signed.
Qed.

(** [NaN] absorbs the sum, and compares false with everything. *)
Lemma add_nan_l (a b : number) : is_nan a = true -> is_nan (a + b) = true.
Proof.
  intros H. apply is_nan_intro. rewrite add_spec.
  assert (E : Prim2SF a = S754_nan).
  { destruct (Prim2SF a) as [s|s| |s m e] eqn:E; try reflexivity;
      rewrite (not_nan_intro a) in H by (rewrite E; discriminate);
      discriminate H. }
  rewrite E. reflexivity.
Qed.

Lemma nan_inv (a : number) : is_nan a = true -> Prim2SF a = S754_nan.
Proof.
  intros H.
  destruct (Prim2SF a) as [s|s| |s m e] eqn:E; try reflexivity;
    rewrite (not_nan_intro a) in H by (rewrite E; discriminate);
    discriminate H.
Qed.

Lemma ltb_nan_l (a b : number) : is_nan a = true -> (a <? b) = false.
Proof.
  intros H. rewrite ltb_spec, (nan_inv a H). reflexivity.
Qed.

Lemma ltb_nan_r (a b : number) : is_nan b = true -> (a <? b) = false.
Proof.
  intros H. rewrite ltb_spec, (nan_inv b H). unfold SFltb, SFcompare.
  destruct (Prim2SF a); reflexivity.
Qed.

(** [|v| * 0.8] is not [NaN] and not negative, when [v] is not [NaN]. *)
Lemma abs_scaled_nonneg (v : number) :
  is_nan v = false ->
  is_nan (Math_abs v * 0.8) = false /\ (0 <=? Math_abs v * 0.8) = true.
Proof.
  intros H.
  assert (S : signed false (Prim2SF (Math_abs v * 0.8))).
  { unfold Math_abs. rewrite mul_spec, abs_spec.
    pose proof (not_nan_inv v H) as Hv.
    change (Prim2SF 0.8) with (S754_finite false 7205759403792794 (-53)).
    destruct (Prim2SF v) as [s|s| |s m e]; simpl; try reflexivity.
    - exfalso. apply Hv. reflexivity.
    - apply binary_round_aux_signed. lia. }
  split.
  - apply not_nan_intro, (signed_not_nan false), S.
  - rewrite leb_spec. change (Prim2SF 0) with (S754_zero false).
    destruct (Prim2SF (Math_abs v * 0.8)) as [s|s| |s m e]; simpl in S;
      try subst s; try reflexivity. contradiction.
Qed.

(** [Math.min] of two numbers, none of them [NaN]: one of the two, and
    not above either. *)
Lemma min2_spec (a b : number) :
  is_nan a = false -> is_nan b = false ->
  (min2 a b = a \/ min2 a b = b)
  /\ (min2 a b <=? a) = true /\ (min2 a b <=? b) = true.
Proof.
  intros Ha Hb. unfold min2. rewrite Ha, Hb. cbn [orb].
  pose proof (not_nan_inv a Ha) as Na. pose proof (not_nan_inv b Hb) as Nb.
  destruct (a <? b) eqn:Eab.
  - split; [left; reflexivity|]. split; [apply leb_refl, Ha|].
    rewrite leb_spec. apply SFltb_leb. rewrite <- ltb_spec. exact Eab.
  - assert (Lba : (b <=? a) = true).
    { rewrite leb_spec. apply SFltb_false_leb; [exact Na|exact Nb|].
      rewrite <- ltb_spec. exact Eab. }
    destruct (b <? a) eqn:Eba.
    + split; [right; reflexivity|]. split; [exact Lba|apply leb_refl, Hb].
    + assert (Lab : (a <=? b) = true).
      { rewrite leb_spec. apply SFltb_false_leb; [exact Nb|exact Na|].
        rewrite <- ltb_spec. exact Eba. }
      destruct (get_sign a).
      * split; [left; reflexivity|]. split; [apply leb_refl, Ha|exact Lab].
      * split; [right; reflexivity|]. split; [exact Lba|apply leb_refl, Hb].
Qed.

End RoundingFacts.

(** ** Integers and signs in binary64 *)

Module Binary64Facts.

Import JSNumber JSArray Agent Reinforce Binary64 JSNumberFacts RoundingFacts.
Local Open Scope float_scope.

Lemma iter_xO_shl (p d : positive) : Pos.iter xO p d = shl p (Pos.to_nat d).
Proof. unfold shl. rewrite Pos2Nat.inj_iter. reflexivity. Qed.

Lemma iter_pos_nat {A : Type} (f : A -> A) (p : positive) :
  forall x, SpecFloat.iter_pos f p x = Nat.iter (Pos.to_nat p) f x.
Proof.
  induction p as [p IH|p IH|]; intros x; cbn [SpecFloat.iter_pos].
  - rewrite !IH, Pos2Nat.inj_xI.
    replace (S (2 * Pos.to_nat p))%nat with (Pos.to_nat p + (Pos.to_nat p + 1))%nat by lia.
    rewrite !Nat.iter_add. reflexivity.
  - rewrite !IH, Pos2Nat.inj_xO.
    replace (2 * Pos.to_nat p)%nat with (Pos.to_nat p + Pos.to_nat p)%nat by lia.
    rewrite Nat.iter_add. reflexivity.
  - reflexivity.
Qed.

Lemma shl_add (p : positive) (n m : nat) : shl p (n + m) = shl (shl p m) n.
Proof. unfold shl. apply Nat.iter_add. Qed.

Lemma digits_shl (p : positive) (n : nat) :
  Z.pos (digits2_pos (shl p n)) = (Z.pos (digits2_pos p) + Z.of_nat n)%Z.
Proof.
  induction n as [|n IH].
  - simpl. lia.
  - change (shl p (S n)) with (xO (shl p n)). cbn [digits2_pos]. lia.
Qed.

Lemma shr_shl (p : positive) (n : nat) :
  Nat.iter n shr_1 (Build_shr_record (Z.pos (shl p n)) false false)
  = Build_shr_record (Z.pos p) false false.
Proof.
  induction n as [|n IH]; [reflexivity|].
  rewrite Nat.iter_succ_r. change (shl p (S n)) with (xO (shl p n)).
  cbn [shr_1 orb]. exact IH.
Qed.

Lemma Zpos_shl (p : positive) (n : nat) :
  Z.pos (shl p n) = (Z.pos p * 2 ^ Z.of_nat n)%Z.
Proof.
  induction n as [|n IH].
  - simpl. lia.
  - change (shl p (S n)) with (xO (shl p n)).
    rewrite Nat2Z.inj_succ, Z.pow_succ_r by lia. lia.
Qed.

Lemma digits_bounds (p : positive) :
  (2 ^ (Z.pos (digits2_pos p) - 1) <= Z.pos p < 2 ^ Z.pos (digits2_pos p))%Z.
Proof.
  induction p as [p IH|p IH|]; cbn [digits2_pos].
  - rewrite Pos2Z.inj_succ.
    replace (Z.succ (Z.pos (digits2_pos p)) - 1)%Z with (Z.succ (Z.pos (digits2_pos p) - 1))%Z by lia.
    rewrite !Z.pow_succ_r by lia. lia.
  - rewrite Pos2Z.inj_succ.
    replace (Z.succ (Z.pos (digits2_pos p)) - 1)%Z with (Z.succ (Z.pos (digits2_pos p) - 1))%Z by lia.
    rewrite !Z.pow_succ_r by lia. lia.
  - simpl. lia.
Qed.

Lemma digits_le_53 (p : positive) :
  (Z.pos p < 2 ^ 53)%Z -> (Z.pos (digits2_pos p) <= 53)%Z.
Proof.
  intros H. destruct (digits_bounds p) as (L & _).
  destruct (Z_le_gt_dec (Z.pos (digits2_pos p)) 53) as [K|K]; [exact K|].
  exfalso.
  assert (2 ^ 53 <= 2 ^ (Z.pos (digits2_pos p) - 1))%Z
    by (apply Z.pow_le_mono_r; lia).
  lia.
Qed.

(** Rounding [p * 2^s] with the exponent [-s] gives the number [p]. *)
Lemma binary_round_shl (p : positive) (s : nat) :
  (Z.pos p < 2 ^ 53)%Z -> (s <= 52)%nat ->
  binary_round prec emax false (shl p s) (- Z.of_nat s) = int_float p.
Proof.
  intros Hp Hs.
  pose proof (digits_le_53 p Hp) as Hd.
  set (d := Z.pos (digits2_pos p)) in *.
  assert (Hd1 : (1 <= d)%Z) by (unfold d; lia).
  unfold binary_round, int_float. fold d.
  rewrite digits_shl. fold d.
  replace (d + Z.of_nat s + - Z.of_nat s)%Z with d by lia.
  assert (Hf : fexp prec emax d = (d - 53)%Z).
  { unfold fexp, emin, prec, emax. lia. }
  rewrite Hf.
  unfold shl_align.
  destruct (d - 53 - - Z.of_nat s)%Z as [|t|t] eqn:Et.
  - (* the mantissa has 53 bits already *)
    unfold binary_round_aux, shr_fexp.
    cbn [Zdigits2]. rewrite digits_shl. fold d.
    replace (d + Z.of_nat s + - Z.of_nat s)%Z with d by lia.
    rewrite Hf. rewrite Et. cbn [shr shr_record_of_loc shr_m loc_of_shr_record round_nearest_even Zdigits2].
    rewrite digits_shl. fold d.
    replace (d + Z.of_nat s + - Z.of_nat s)%Z with d by lia.
    rewrite Hf, Et. cbn [shr shr_m].
    replace (- Z.of_nat s <=? emax - prec)%Z with true
      by (symmetry; apply Z.leb_le; unfold emax, prec; lia).
    f_equal; [f_equal; lia|lia].
  - (* too many bits: shift right by [t] *)
    unfold binary_round_aux, shr_fexp.
    cbn [Zdigits2]. rewrite digits_shl. fold d.
    replace (d + Z.of_nat s + - Z.of_nat s)%Z with d by lia.
    rewrite Hf, Et. cbn [shr shr_record_of_loc].
    rewrite iter_pos_nat.
    assert (Hshr : Nat.iter (Pos.to_nat t) shr_1
                     (Build_shr_record (Z.pos (shl p s)) false false)
                   = Build_shr_record (Z.pos (shl p (Z.to_nat (53 - d))))
                       false false).
    { replace s with (Pos.to_nat t + Z.to_nat (53 - d))%nat at 1 by lia.
      rewrite shl_add. apply shr_shl. }
    rewrite Hshr.
    cbn [shr_m loc_of_shr_record round_nearest_even Zdigits2].
    rewrite digits_shl. fold d.
    replace (fexp prec emax (d + Z.of_nat (Z.to_nat (53 - d)) + (- Z.of_nat s + Z.pos t))
             - (- Z.of_nat s + Z.pos t))%Z with 0%Z
      by (unfold fexp, emin, prec, emax; lia).
    cbn [shr shr_record_of_loc shr_m].
    replace (- Z.of_nat s + Z.pos t <=? emax - prec)%Z with true
      by (symmetry; apply Z.leb_le; unfold emax, prec; lia).
    f_equal. lia.
  - (* too few bits: shift left by [t] *)
    rewrite iter_xO_shl, <- shl_add.
    unfold binary_round_aux, shr_fexp.
    cbn [Zdigits2]. rewrite digits_shl. fold d.
    replace (fexp prec emax (d + Z.of_nat (Pos.to_nat t + s) + (d - 53)) - (d - 53))%Z
      with 0%Z by (unfold fexp, emin, prec, emax; lia).
    cbn [shr shr_record_of_loc shr_m loc_of_shr_record round_nearest_even Zdigits2].
    rewrite digits_shl. fold d.
    replace (fexp prec emax (d + Z.of_nat (Pos.to_nat t + s) + (d - 53)) - (d - 53))%Z
      with 0%Z by (unfold fexp, emin, prec, emax; lia).
    cbn [shr shr_m].
    replace (d - 53 <=? emax - prec)%Z with true
      by (symmetry; apply Z.leb_le; unfold emax, prec; lia).
    f_equal. f_equal. lia.
Qed.

Lemma of_length_int (n : nat) :
  (0 < n)%nat -> (Z.of_nat n < 2 ^ 53)%Z ->
  Prim2SF (of_length n) = int_float (Pos.of_nat n).
Proof.
  intros H0 H.
  unfold of_length. rewrite of_uint63_spec, Uint63.of_Z_spec.
  rewrite Z.mod_small by (change Uint63.wB with (2 ^ 63)%Z; lia).
  assert (Hz : Z.of_nat n = Z.pos (Pos.of_nat n)) by lia.
  rewrite Hz. cbn [binary_normalize].
  apply (binary_round_shl (Pos.of_nat n) 0); lia.
Qed.

Lemma add_one_int (v : number) (p : positive) :
  (Z.pos p + 1 < 2 ^ 53)%Z ->
  Prim2SF v = int_float p -> Prim2SF (v + 1) = int_float (p + 1).
Proof.
  intros Hp E.
  assert (Hp' : (Z.pos p < 2 ^ 53)%Z) by lia.
  pose proof (digits_le_53 p Hp') as Hd.
  rewrite add_spec, E.
  change (Prim2SF 1) with (S754_finite false 4503599627370496 (-52)).
  unfold int_float.
  set (d := Z.pos (digits2_pos p)) in *.
  assert (Hd1 : (1 <= d)%Z) by (unfold d; lia).
  unfold SF64add. cbn [SFadd cond_Zopp].
  replace (Z.min (d - 53) (-52)) with (-52)%Z by lia.
  assert (A1 : fst (shl_align (shl p (Z.to_nat (53 - d))) (d - 53) (-52))
               = shl p 52).
  { unfold shl_align.
    destruct (-52 - (d - 53))%Z as [|t|t] eqn:Et; cbn [fst].
    - f_equal. lia.
    - lia.
    - rewrite iter_xO_shl, <- shl_add. f_equal. lia. }
  rewrite A1.
  change (fst (shl_align 4503599627370496 (-52) (-52))) with (shl 1 52).
  replace (Z.pos (shl p 52) + Z.pos (shl 1 52))%Z with (Z.pos (shl (p + 1) 52))
    by (rewrite !Zpos_shl; lia).
  cbn [binary_normalize].
  apply (binary_round_shl (p + 1) 52); lia.
Qed.

Lemma sum_ones (n : nat) :
  (0 < n)%nat -> (Z.of_nat n < 2 ^ 53)%Z ->
  fold_left add (repeat 1 n) 0 = of_length n.
Proof.
  intros H0 H. apply Prim2SF_inj. rewrite (of_length_int n H0 H).
  destruct n as [|n]; [lia|]. clear H0.
  induction n as [|n IH].
  - reflexivity.
  - replace (repeat 1 (S (S n))) with (repeat 1 (S n) ++ [1])
      by (rewrite <- repeat_cons; reflexivity).
    rewrite fold_left_app. cbn [fold_left].
    replace (Pos.of_nat (S (S n))) with (Pos.of_nat (S n) + 1)%positive by lia.
    apply add_one_int; [lia|apply IH; lia].
Qed.

(** A finite number that is not a zero, divided by itself, is 1. *)
Lemma div_self (v : number) (s : bool) (m : positive) (e : Z) :
  Prim2SF v = S754_finite s m e -> v / v = 1.
Proof.
  intros E. apply Prim2SF_inj. rewrite div_spec, E.
  unfold SF64div. cbn [SFdiv]. unfold SFdiv_core_binary.
  rewrite !Z.sub_diag.
  change (Z.min (fexp prec emax 0) 0) with (-53)%Z.
  change (0 - -53)%Z with 53%Z. cbv iota beta.
  rewrite Z.shiftl_mul_pow2 by lia.
  assert (D : Z.div_eucl (Z.pos m * 2 ^ 53) (Z.pos m) = (2 ^ 53, 0)%Z).
  { pose proof (Z.div_mul (2 ^ 53) (Z.pos m) ltac:(lia)) as Q.
    pose proof (Z.mod_mul (2 ^ 53) (Z.pos m) ltac:(lia)) as R.
    unfold Z.div, Z.modulo in Q, R. rewrite Z.mul_comm.
    destruct (Z.div_eucl (2 ^ 53 * Z.pos m) (Z.pos m)) as [q r].
    rewrite Q, R. reflexivity. }
  rewrite D.
  replace (new_location (Z.pos m) 0) with loc_Exact
    by (unfold new_location; destruct (Z.even (Z.pos m)); reflexivity).
  destruct s; reflexivity.
Qed.

Lemma nonneg_numeric (v : number) : nonneg v -> numeric v.
Proof. apply signed_not_nan. Qed.

Lemma binary_normalize_numeric (m e : Z) :
  binary_normalize prec emax m e false <> S754_nan.
Proof.
  destruct m as [|q|q]; cbn [binary_normalize].
  - discriminate.
  - apply (signed_not_nan false), binary_round_signed.
  - apply (signed_not_nan true), binary_round_signed.
Qed.

Lemma add_finite_numeric (a b : number) :
  numeric a -> is_finite b = true -> numeric (a + b).
Proof.
  unfold numeric. intros Ha Hb. rewrite add_spec.
  destruct (is_finite_inv b Hb) as [(s & E)|(s & m & e & E)]; rewrite E;
    destruct (Prim2SF a) as [sa|sa| |sa ma ea]; try (exfalso; apply Ha; reflexivity);
    try discriminate; try (destruct sa, s; discriminate).
  unfold SF64add. cbn [SFadd]. apply binary_normalize_numeric.
Qed.

Lemma sum_finite_numeric (l : list number) :
  Forall (fun r => is_finite r = true) l ->
  forall acc, numeric acc -> numeric (fold_left add l acc).
Proof.
  induction 1 as [|r l Hr Hl IH]; intros acc Hacc; cbn [fold_left].
  - exact Hacc.
  - apply IH, add_finite_numeric; assumption.
Qed.

Lemma div_core_nonneg (m1 e1 m2 e2 : Z) :
  (0 <= m1)%Z -> (0 < m2)%Z ->
  (0 <= fst (fst (SFdiv_core_binary prec emax m1 e1 m2 e2)))%Z.
Proof.
  intros H1 H2. unfold SFdiv_core_binary.
  set (s := (e1 - e2 - _)%Z).
  set (m' := match s with Z.pos _ => Z.shiftl m1 s | 0%Z => m1 | Z.neg _ => 0%Z end).
  assert (Hm : (0 <= m')%Z).
  { subst m'. destruct s; try lia. apply Z.shiftl_nonneg. exact H1. }
  pose proof (Z.div_pos m' m2 Hm H2) as Q. unfold Z.div in Q.
  destruct (Z.div_eucl m' m2) as [q r]. exact Q.
Qed.

Lemma div_finite_signed (sx sy : bool) (mx my : positive) (ex ey : Z) :
  signed (xorb sx sy)
    (SFdiv prec emax (S754_finite sx mx ex) (S754_finite sy my ey)).
Proof.
  cbn [SFdiv].
  pose proof (div_core_nonneg (Z.pos mx) ex (Z.pos my) ey ltac:(lia) ltac:(lia)) as Q.
  destruct (SFdiv_core_binary prec emax (Z.pos mx) ex (Z.pos my) ey) as [[mz ez] lz].
  apply binary_round_aux_signed. exact Q.
Qed.

(** Dividing by a positive finite number keeps a number a number, and
    the sign bit clear. *)
Lemma div_pos_numeric (a n : number) (m : positive) (e : Z) :
  Prim2SF n = S754_finite false m e -> numeric a -> numeric (a / n).
Proof.
  unfold numeric. intros En Ha. rewrite div_spec, En.
  destruct (Prim2SF a) as [sa|sa| |sa ma ea]; try (exfalso; apply Ha; reflexivity);
    try discriminate.
  apply (signed_not_nan (xorb sa false)), div_finite_signed.
Qed.

Lemma div_pos_nonneg (a n : number) (m : positive) (e : Z) :
  Prim2SF n = S754_finite false m e -> nonneg a -> nonneg (a / n).
Proof.
  unfold nonneg. intros En Ha. rewrite div_spec, En.
  destruct (Prim2SF a) as [sa|sa| |sa ma ea]; cbn in Ha; try contradiction;
    subst sa; try reflexivity.
  apply (div_finite_signed false false).
Qed.

Lemma sub_finite_numeric (r mean : number) :
  is_finite r = true -> numeric mean -> numeric (r - mean).
Proof.
  unfold numeric. intros Hr Hm. rewrite sub_spec.
  destruct (is_finite_inv r Hr) as [(s & E)|(s & m & e & E)]; rewrite E;
    destruct (Prim2SF mean) as [sa|sa| |sa ma ea]; try (exfalso; apply Hm; reflexivity);
    try discriminate; try (destruct sa, s; discriminate).
  unfold SF64sub. cbn [SFsub]. apply binary_normalize_numeric.
Qed.

Lemma square_nonneg (v : number) : numeric v -> nonneg (v * v).
Proof.
  unfold numeric, nonneg. intros Hv. rewrite mul_spec.
  destruct (Prim2SF v) as [s|s| |s m e]; try (exfalso; apply Hv; reflexivity).
  - destruct s; reflexivity.
  - destruct s; reflexivity.
  - unfold SF64mul. cbn [SFmul]. replace (xorb s s) with false by (destruct s; reflexivity).
    apply binary_round_aux_signed. lia.
Qed.

Lemma add_nonneg (a b : number) : nonneg a -> nonneg b -> nonneg (a + b).
Proof.
  unfold nonneg. intros Ha Hb. rewrite add_spec.
  destruct (Prim2SF a) as [sa|sa| |sa ma ea]; cbn in Ha; try contradiction;
    subst sa;
    destruct (Prim2SF b) as [sb|sb| |sb mb eb]; cbn in Hb; try contradiction;
    subst sb; try reflexivity.
  unfold SF64add. cbn [SFadd cond_Zopp].
  match goal with
  | |- context [(Z.pos ?p + Z.pos ?q)%Z] =>
      change (Z.pos p + Z.pos q)%Z with (Z.pos (p + q))
  end.
  cbn [binary_normalize]. apply (binary_round_signed prec emax false).
Qed.

Lemma sum_nonneg (l : list number) :
  Forall nonneg l -> forall acc, nonneg acc -> nonneg (fold_left add l acc).
Proof.
  induction 1 as [|r l Hr Hl IH]; intros acc Hacc; cbn [fold_left].
  - exact Hacc.
  - apply IH, add_nonneg; assumption.
Qed.

Lemma sqrt_nonneg_numeric (v : number) : nonneg v -> numeric (Math_sqrt v).
Proof.
  unfold nonneg, numeric, Math_sqrt. intros Hv. rewrite sqrt_spec.
  destruct (Prim2SF v) as [s|s| |s m e]; cbn in Hv; try contradiction; subst s;
    try discriminate.
  unfold SF64sqrt. cbn [SFsqrt].
  assert (Q : (0 <= fst (fst (SFsqrt_core_binary prec emax (Z.pos m) e)))%Z).
  { unfold SFsqrt_core_binary.
    set (m' := match _ with Z.pos _ => _ | 0%Z => _ | Z.neg _ => _ end).
    pose proof (Z.sqrtrem_sqrt m') as Q. pose proof (Z.sqrt_nonneg m') as P.
    destruct (Z.sqrtrem m') as [q r]. cbn [fst] in *. lia. }
  destruct (SFsqrt_core_binary prec emax (Z.pos m) e) as [[mz ez] lz].
  apply (signed_not_nan false), binary_round_aux_signed. exact Q.
Qed.

Lemma is_nan_numeric (v : number) : numeric v -> is_nan v = false.
Proof. apply not_nan_intro. Qed.

(** For finite returns, of which there are at least one and fewer than
    2^53, the standard deviation is a number. *)
Lemma population_std_numeric (N : nat) (G : list number) :
  (0 < N)%nat -> (Z.of_nat N < 2 ^ 53)%Z ->
  Forall (fun r => is_finite r = true) G ->
  is_nan (population_std N G) = false.
Proof.
  intros H0 H HG. apply is_nan_numeric.
  pose proof (of_length_int N H0 H) as EN. unfold int_float in EN.
  assert (Hmean : numeric (sample_mean N G)).
  { unfold sample_mean, sum_list.
    apply (div_pos_numeric _ _ _ _ EN), sum_finite_numeric; [exact HG|].
    discriminate. }
  unfold population_std. cbv zeta.
  apply sqrt_nonneg_numeric, (div_pos_nonneg _ _ _ _ EN).
  unfold sum_list. apply sum_nonneg; [|reflexivity].
  apply Forall_map. revert HG. apply Forall_impl. intros r Hr.
  apply square_nonneg, sub_finite_numeric; assumption.
Qed.

End Binary64Facts.

(** ** Facts on arrays and loops *)

Module JSArrayFacts.

Import JSNumber JSArray.

Lemma for_loop_S {S : Type} (n : nat) (body : nat -> S -> S) (s : S) :
  for_loop (Datatypes.S n) body s = body n (for_loop n body s).
Proof.
  unfold for_loop. rewrite seq_S, fold_left_app. reflexivity.
Qed.

Lemma for_loop_0 {S : Type} (body : nat -> S -> S) (s : S) :
  for_loop 0 body s = s.
Proof. reflexivity. Qed.

(** Loop invariants: [P k] holds before iteration [k]. *)
Lemma for_loop_ind {S : Type} (P : nat -> S -> Prop) (n : nat)
    (body : nat -> S -> S) (s : S) :
  P 0 s ->
  (forall k acc, k < n -> P k acc -> P (Datatypes.S k) (body k acc)) ->
  P n (for_loop n body s).
Proof.
  intros H0 Hstep. induction n as [|n IH].
  - exact H0.
  - rewrite for_loop_S. apply Hstep; [lia|]. apply IH.
    intros k acc Hk. apply Hstep. lia.
Qed.

Lemma for_loop_pair {A B : Type} (n : nat) (f : nat -> A -> A)
    (g : nat -> B -> B) (a : A) (b : B) :
  for_loop n (fun i '(x, y) => (f i x, g i y)) (a, b)
  = (for_loop n f a, for_loop n g b).
Proof.
  induction n as [|n IH]; [reflexivity|].
  rewrite !for_loop_S, IH. reflexivity.
Qed.

Lemma length_set (l : list number) (i : nat) (v : number) :
  i < length l -> length (set l i v) = length l.
Proof.
  revert i. induction l as [|h t IH]; intros [|i] H; simpl in *; try lia.
  rewrite IH; lia.
Qed.

Lemma get_set_eq (l : list number) (i : nat) (v : number) :
  get (set l i v) i = v.
Proof.
  unfold get. revert l. induction i as [|i IH]; intros [|h t]; simpl; auto.
Qed.

Lemma get_set_neq (l : list number) (i j : nat) (v : number) :
  i <> j -> get (set l i v) j = get l j.
Proof.
  unfold get. revert l j.
  induction i as [|i IH]; intros [|h t] [|j] H; simpl; try reflexivity; try lia.
  - destruct j; reflexivity.
  - rewrite IH by lia. destruct j; reflexivity.
  - apply IH. lia.
Qed.

Lemma length_set2 (m : list (list number)) (i j : nat) (v : number) :
  length (set2 m i j v) = length m.
Proof.
  revert i. induction m as [|r t IH]; intros [|i]; simpl; auto.
Qed.

Lemma get2_set2_eq (m : list (list number)) (i j : nat) (v : number) :
  i < length m -> get2 (set2 m i j v) i j = v.
Proof.
  unfold get2. revert i. induction m as [|r t IH]; intros [|i] H; simpl in *; try lia.
  - apply get_set_eq.
  - apply IH. lia.
Qed.

Lemma get2_set2_neq (m : list (list number)) (i j i' j' : nat) (v : number) :
  i <> i' \/ j <> j' -> get2 (set2 m i j v) i' j' = get2 m i' j'.
Proof.
  unfold get2. revert i i'.
  induction m as [|r t IH]; intros [|i] [|i'] H; simpl; try reflexivity.
  - apply get_set_neq. lia.
  - apply IH. lia.
Qed.

Lemma rows_set2 (c : nat) (m : list (list number)) (i j : nat) (v : number) :
  j < c ->
  Forall (fun row => length row = c) m ->
  Forall (fun row => length row = c) (set2 m i j v).
Proof.
  intros Hj. revert i. induction m as [|r t IH]; intros i H; [destruct i; constructor|].
  inversion H as [|? ? Hr Ht]; subst.
  destruct i; simpl; constructor; auto.
  rewrite length_set; lia.
Qed.

(** *** Loops that visit each cell once *)

Section CellLoops.

Variable F : nat -> number -> number.

(** [for (i < n) l[i] = F(i, l[i])]. *)
Lemma loop_vec (n : nat) (l : list number) :
  let l' := for_loop n (fun i acc => set acc i (F i (get acc i))) l in
  (n <= length l -> length l' = length l)
  /\ forall k, get l' k = if k <? n then F k (get l k) else get l k.
Proof.
  apply (for_loop_ind
    (fun n l' => (n <= length l -> length l' = length l)
       /\ forall k, get l' k = if k <? n then F k (get l k) else get l k)).
  - split; [reflexivity|]. intros k. reflexivity.
  - intros k acc Hk [Hlen Hget]. split.
    + intros H. rewrite length_set; [apply Hlen; lia|]. rewrite Hlen; lia.
    + intros k'. destruct (Nat.eq_dec k k') as [->|Hne].
      * rewrite get_set_eq, Hget, Nat.ltb_irrefl.
        replace (k' <? S k') with true by (symmetry; apply Nat.ltb_lt; lia).
        reflexivity.
      * rewrite get_set_neq, Hget by exact Hne.
        destruct (k' <? k) eqn:E1, (k' <? S k) eqn:E2; try reflexivity.
        -- apply Nat.ltb_lt in E1. apply Nat.ltb_ge in E2. lia.
        -- apply Nat.ltb_ge in E1. apply Nat.ltb_lt in E2. lia.
Qed.

End CellLoops.

(** What a loop nest leaves in a matrix: the cells of the block
    [rows x cols] hold [G] of their old content, the others are kept. *)
Definition block_updated (G : nat -> nat -> number -> number)
    (rows cols : nat) (m m' : list (list number)) : Prop :=
  length m' = length m
  /\ (forall c, cols <= c -> Forall (fun row => length row = c) m ->
        Forall (fun row => length row = c) m')
  /\ forall i j, get2 m' i j
       = if (i <? rows) && (j <? cols) then G i j (get2 m i j) else get2 m i j.

Lemma ltb_S (k n : nat) : (k <? S n) = (k <? n) || (k =? n).
Proof.
  apply eq_true_iff_eq.
  rewrite orb_true_iff, !Nat.ltb_lt, Nat.eqb_eq. lia.
Qed.

Section BlockLoops.

Variable G : nat -> nat -> number -> number.

(** The first index runs, the second is fixed: one column. *)
Lemma loop_column (rows j : nat) (m : list (list number)) :
  rows <= length m ->
  let m' := for_loop rows
              (fun i acc => set2 acc i j (G i j (get2 acc i j))) m in
  length m' = length m
  /\ (forall c, j < c -> Forall (fun row => length row = c) m ->
        Forall (fun row => length row = c) m')
  /\ forall i j', get2 m' i j'
       = if (i <? rows) && (j' =? j) then G i j (get2 m i j') else get2 m i j'.
Proof.
  intros Hrows.
  apply (for_loop_ind
    (fun n m' => n <= rows -> length m' = length m
       /\ (forall c, j < c -> Forall (fun row => length row = c) m ->
             Forall (fun row => length row = c) m')
       /\ forall i j', get2 m' i j'
            = if (i <? n) && (j' =? j) then G i j (get2 m i j') else get2 m i j'));
    [| |lia].
  - intros _. split; [reflexivity|]. split; [auto|]. intros i j'. reflexivity.
  - intros k acc Hk IH Hle. destruct IH as (Hlen & Hrow & Hget); [lia|].
    split; [rewrite length_set2; exact Hlen|].
    split; [intros c Hc Hm; apply rows_set2; auto|].
    intros i j'. rewrite ltb_S.
    destruct (Nat.eq_dec k i) as [->|Hi]; [destruct (Nat.eq_dec j j') as [->|Hj]|].
    + rewrite get2_set2_eq by lia. rewrite Hget.
      rewrite Nat.ltb_irrefl, !Nat.eqb_refl, orb_true_r. reflexivity.
    + rewrite get2_set2_neq by (right; exact Hj). rewrite Hget.
      replace (j' =? j) with false by (symmetry; apply Nat.eqb_neq; lia).
      rewrite !andb_false_r. reflexivity.
    + rewrite get2_set2_neq by (left; exact Hi). rewrite Hget.
      replace (i =? k) with false by (symmetry; apply Nat.eqb_neq; lia).
      rewrite orb_false_r. reflexivity.
Qed.

(** The second index runs, the first is fixed: one row. *)
Lemma loop_row (i cols : nat) (m : list (list number)) :
  i < length m ->
  let m' := for_loop cols
              (fun j acc => set2 acc i j (G i j (get2 acc i j))) m in
  length m' = length m
  /\ (forall c, cols <= c -> Forall (fun row => length row = c) m ->
        Forall (fun row => length row = c) m')
  /\ forall i' j, get2 m' i' j
       = if (i' =? i) && (j <? cols) then G i j (get2 m i' j) else get2 m i' j.
Proof.
  intros Hi.
  apply (for_loop_ind
    (fun n m' => n <= cols -> length m' = length m
       /\ (forall c, cols <= c -> Forall (fun row => length row = c) m ->
             Forall (fun row => length row = c) m')
       /\ forall i' j, get2 m' i' j
            = if (i' =? i) && (j <? n) then G i j (get2 m i' j) else get2 m i' j));
    [| |lia].
  - intros _. split; [reflexivity|]. split; [auto|]. intros i' j.
    rewrite andb_false_r. reflexivity.
  - intros k acc Hk IH Hle. destruct IH as (Hlen & Hrow & Hget); [lia|].
    split; [rewrite length_set2; exact Hlen|].
    split; [intros c Hc Hm; apply rows_set2; [lia|auto]|].
    intros i' j. rewrite ltb_S.
    destruct (Nat.eq_dec i i') as [<-|Hi']; [destruct (Nat.eq_dec k j) as [->|Hj]|].
    + rewrite get2_set2_eq by lia. rewrite Hget.
      rewrite Nat.ltb_irrefl, !Nat.eqb_refl, orb_true_r, andb_false_r. reflexivity.
    + rewrite get2_set2_neq by (right; exact Hj). rewrite Hget.
      replace (j =? k) with false by (symmetry; apply Nat.eqb_neq; lia).
      rewrite orb_false_r. reflexivity.
    + rewrite get2_set2_neq by (left; exact Hi'). rewrite Hget.
      replace (i' =? i) with false by (symmetry; apply Nat.eqb_neq; lia).
      reflexivity.
Qed.

(** Columns outside, rows inside: [for (j < cols) for (i < rows)]. *)
Lemma loop_columns (rows cols : nat) (m : list (list number)) :
  rows <= length m ->
  block_updated G rows cols m
    (for_loop cols
       (fun j acc =>
          for_loop rows
            (fun i acc => set2 acc i j (G i j (get2 acc i j))) acc) m).
Proof.
  intros Hrows.
  apply (for_loop_ind
    (fun n m' => n <= cols -> length m' = length m
       /\ (forall c, cols <= c -> Forall (fun row => length row = c) m ->
             Forall (fun row => length row = c) m')
       /\ forall i j, get2 m' i j
            = if (i <? rows) && (j <? n) then G i j (get2 m i j) else get2 m i j));
    [| |lia].
  - intros _. split; [reflexivity|]. split; [auto|]. intros i j.
    rewrite andb_false_r. reflexivity.
  - intros k acc Hk IH Hle. destruct IH as (Hlen & Hrow & Hget); [lia|].
    destruct (loop_column rows k acc) as (Hlen' & Hrow' & Hget'); [lia|].
    split; [rewrite Hlen'; exact Hlen|].
    split; [intros c Hc Hm; apply Hrow'; [lia|]; apply Hrow; auto|].
    intros i j. rewrite Hget', !Hget, ltb_S.
    destruct (i <? rows), (j =? k) eqn:Ej; simpl;
      rewrite ?orb_false_r, ?orb_true_r; try reflexivity.
    apply Nat.eqb_eq in Ej. subst j. rewrite Nat.ltb_irrefl. reflexivity.
Qed.

(** Rows outside, columns inside: [for (i < rows) for (j < cols)]. *)
Lemma loop_rows (rows cols : nat) (m : list (list number)) :
  rows <= length m ->
  block_updated G rows cols m
    (for_loop rows
       (fun i acc =>
          for_loop cols
            (fun j acc => set2 acc i j (G i j (get2 acc i j))) acc) m).
Proof.
  intros Hrows.
  apply (for_loop_ind
    (fun n m' => n <= rows -> length m' = length m
       /\ (forall c, cols <= c -> Forall (fun row => length row = c) m ->
             Forall (fun row => length row = c) m')
       /\ forall i j, get2 m' i j
            = if (i <? n) && (j <? cols) then G i j (get2 m i j) else get2 m i j));
    [| |lia].
  - intros _. split; [reflexivity|]. split; [auto|]. intros i j. reflexivity.
  - intros k acc Hk IH Hle. destruct IH as (Hlen & Hrow & Hget); [lia|].
    destruct (loop_row k cols acc) as (Hlen' & Hrow' & Hget'); [lia|].
    split; [rewrite Hlen'; exact Hlen|].
    split; [intros c Hc Hm; apply Hrow'; [lia|]; apply Hrow; auto|].
    intros i j. rewrite Hget', !Hget, ltb_S.
    destruct (j <? cols), (i =? k) eqn:Ei; simpl;
      rewrite ?orb_false_r, ?orb_true_r, ?andb_false_r, ?andb_true_r; try reflexivity.
    apply Nat.eqb_eq in Ei. subst i. rewrite Nat.ltb_irrefl. reflexivity.
Qed.

End BlockLoops.

End JSArrayFacts.

(** ** The simulator: results *)

Module CartPoleFacts.

Import JSNumber Types CartPole Samples.
Local Open Scope float_scope.

(** C10. [step] pushes with the force +10.0 when the action is exactly
    the number 1 and with -10.0 for every other action (0, 2, -1, NaN,
    ...): the state it moves to is the one that the equations of motion
    give for that force.  [step] is defined on every number: no action is
    rejected. *)
Theorem step_force_sign (Math_cos Math_sin : number -> number)
    (state : CartPoleState) (action : number) :
  let pushed := fun force : number =>
    let s := Math_sin (theta state) in
    let c := Math_cos (theta state) in
    let temp := (force + 0.05 * thetaDot state * thetaDot state * s) / 1.1 in
    let thetaAcc :=
      (9.8 * s - c * temp) / (0.5 * (4 / 3 - 0.1 * c * c / 1.1)) in
    let xAcc := temp - 0.05 * thetaAcc * c / 1.1 in
    mkState (x state + 0.02 * xDot state) (xDot state + 0.02 * xAcc)
            (theta state + 0.02 * thetaDot state)
            (thetaDot state + 0.02 * thetaAcc) in
  let r := step Math_cos Math_sin state action in
  (strict_eq action 1 = true -> fst r = pushed 10.0)
  /\ (strict_eq action 1 = false -> fst r = pushed (-10.0))
  /\ (action = 1 -> fst r = pushed 10.0)
  /\ (action = 0 \/ action = 2 \/ action = -1 -> fst r = pushed (-10.0))
  /\ nextState (snd r) = fst r.
Proof.
  intros pushed r.
  assert (P : strict_eq action 1 = true -> fst r = pushed 10.0).
  { intros E. subst r pushed. unfold step, force_of. rewrite E. reflexivity. }
  assert (Q : strict_eq action 1 = false -> fst r = pushed (-10.0)).
  { intros E. subst r pushed. unfold step, force_of. rewrite E. reflexivity. }
  split; [exact P|]. split; [exact Q|]. split; [|split].
  - intros ->. apply P. reflexivity.
  - intros [-> | [-> | ->]]; apply Q; reflexivity.
  - reflexivity.
Qed.

(** From rest at the origin, the action 2 sets the cart moving to the
    left and the action 1 to the right. *)
Lemma step_force_sign_sample :
  (xDot (fst (step sample_cos sample_sin (mkState 0 0 0 0) 2)) <? 0) = true
  /\ (0 <? xDot (fst (step sample_cos sample_sin (mkState 0 0 0 0) 1))) = true.
Proof.
  pose proof (step_force_sign sample_cos sample_sin (mkState 0 0 0 0) 2) as H2.
  pose proof (step_force_sign sample_cos sample_sin (mkState 0 0 0 0) 1) as H1.
  cbv zeta in H1, H2.
  destruct H2 as (_ & H2 & _). destruct H1 as (H1 & _).
  rewrite (H2 eq_refl), (H1 eq_refl). split; reflexivity.
Defined.

(** C4. One call of [step] evaluates the Barto-Sutton-Anderson equations
    with the constants 9.8, 0.1, 1.1, 0.5, 0.05, 10.0 and advances the four
    state components by one explicit Euler step of length 0.02, each from
    the values before the step.  Products are taken left to right, as the
    source writes them. *)
Theorem step_dynamics (Math_cos Math_sin : number -> number)
    (state : CartPoleState) (action : number) :
  let force := if strict_eq action 1 then 10.0 else -10.0 in
  let s := Math_sin (theta state) in
  let c := Math_cos (theta state) in
  let temp := (force + 0.05 * thetaDot state * thetaDot state * s) / 1.1 in
  let thetaAcc :=
    (9.8 * s - c * temp) / (0.5 * (4 / 3 - 0.1 * c * c / 1.1)) in
  let xAcc := temp - 0.05 * thetaAcc * c / 1.1 in
  let state' := fst (step Math_cos Math_sin state action) in
  x state' = x state + 0.02 * xDot state
  /\ xDot state' = xDot state + 0.02 * xAcc
  /\ theta state' = theta state + 0.02 * thetaDot state
  /\ thetaDot state' = thetaDot state + 0.02 * thetaAcc
  /\ nextState (snd (step Math_cos Math_sin state action)) = state'
  /\ reward (snd (step Math_cos Math_sin state action)) = 1.
Proof.
  intros force s c temp thetaAcc xAcc state'.
  assert (F : force_of action = force).
  { unfold force_of, force. destruct (strict_eq action 1); reflexivity. }
  subst state'. unfold step. rewrite F. cbn [fst snd x xDot theta thetaDot nextState reward].
  repeat split; reflexivity.
Qed.

Lemma orb4_true (a b c d : bool) :
  a || b || c || d = true <-> a = true \/ b = true \/ c = true \/ d = true.
Proof.
  rewrite !orb_true_iff. tauto.
Qed.

(** C6. [step] moves the environment to the state integrated from the
    one before, returns a copy of it, and returns [done] as true exactly
    when the new position is strictly below -2.4 or above 2.4, or the new
    angle strictly beyond 12 degrees in radians on either side; a new
    position of 2.41 is terminal, a new position and angle of 0 are
    not. *)
Theorem step_done_iff (Math_cos Math_sin : number -> number)
    (state : CartPoleState) (action : number) :
  let state' := fst (step Math_cos Math_sin state action) in
  let r := snd (step Math_cos Math_sin state action) in
  let limit := 12 * (Math_PI / 180) in
  nextState r = state'
  /\ x state' = x state + 0.02 * xDot state
  /\ theta state' = theta state + 0.02 * thetaDot state
  /\ (done r = true <->
        (x state' <? -2.4) = true \/ (2.4 <? x state') = true
        \/ (theta state' <? - limit) = true
        \/ (limit <? theta state') = true)
  /\ (x state' = 2.41 -> done r = true)
  /\ ((limit <? theta state') = true -> done r = true)
  /\ (x state' = 0 -> theta state' = 0 -> done r = false).
Proof.
  intros state' r limit. subst state' r. unfold step.
  cbn [fst snd done nextState x theta].
  set (nextX := x state + tau * xDot state).
  set (nextTheta := theta state + tau * thetaDot state).
  split; [reflexivity|]. split; [reflexivity|]. split; [reflexivity|].
  split; [|split; [|split]].
  - unfold is_done. rewrite orb4_true. reflexivity.
  - intro E. rewrite E. unfold is_done.
    replace (CARTPOLE_THRESHOLDS_x <? 2.41) with true by reflexivity.
    rewrite orb_true_r. reflexivity.
  - intro E. unfold is_done. apply orb4_true. right. right. right. exact E.
  - intros Ex Et. rewrite Ex, Et. reflexivity.
Qed.

(** States that land on [x = 2.41], beyond 2.4, and beyond 12 degrees
    end the episode; the origin at rest and a state that stays within
    both limits do not. *)
Lemma step_done_iff_sample :
  done (snd (step sample_cos sample_sin (mkState 2.41 0 0 0) 1)) = true
  /\ done (snd (step sample_cos sample_sin (mkState 2.3 5.5 0 0) 1)) = true
  /\ done (snd (step sample_cos sample_sin (mkState 0 0 0.2 0.5) 0)) = true
  /\ done (snd (step sample_cos sample_sin (mkState 0 0 0 0) 0)) = false
  /\ done (snd (step sample_cos sample_sin (mkState 2.3 4.9 0.2 0.4) 0)) = false.
Proof.
  pose proof (step_done_iff sample_cos sample_sin (mkState 2.41 0 0 0) 1) as H1.
  pose proof (step_done_iff sample_cos sample_sin (mkState 2.3 5.5 0 0) 1) as H2.
  pose proof (step_done_iff sample_cos sample_sin (mkState 0 0 0.2 0.5) 0) as H3.
  pose proof (step_done_iff sample_cos sample_sin (mkState 0 0 0 0) 0) as H4.
  pose proof (step_done_iff sample_cos sample_sin (mkState 2.3 4.9 0.2 0.4) 0)
    as H5.
  cbv zeta in H1, H2, H3, H4, H5.
  destruct H1 as (_ & _ & _ & _ & H1 & _).
  destruct H2 as (_ & _ & _ & H2 & _).
  destruct H3 as (_ & _ & _ & _ & _ & H3 & _).
  destruct H4 as (_ & _ & _ & _ & _ & _ & H4).
  destruct H5 as (_ & _ & _ & H5 & _).
  split; [apply H1; reflexivity|].
  split; [apply H2; right; left; reflexivity|].
  split; [apply H3; reflexivity|].
  split; [apply H4; reflexivity|].
  apply not_true_is_false. intros D. apply H5 in D.
  destruct D as [D|[D|[D|D]]]; vm_compute in D; discriminate D.
Defined.

End CartPoleFacts.

(** ** The agent: the episode buffer *)

Module BufferFacts.

Import JSNumber JSArray Types Agent.

Lemma storeStep_lengths (a : PolicyGradientAgent) (act : LayerActivations)
    (action reward : number) :
  let a' := storeStep a act action reward in
  length (episodeStates a') = S (length (episodeStates a))
  /\ length (episodeHiddens a') = S (length (episodeHiddens a))
  /\ length (episodeProbs a') = S (length (episodeProbs a))
  /\ length (episodeActions a') = S (length (episodeActions a))
  /\ length (episodeRewards a') = S (length (episodeRewards a)).
Proof.
  simpl. rewrite !length_app. simpl. repeat split; lia.
Qed.

Lemma storeStep_aligned (a : PolicyGradientAgent) (act : LayerActivations)
    (action reward : number) :
  aligned a -> aligned (storeStep a act action reward).
Proof.
  intros (H1 & H2 & H3 & H4).
  destruct (storeStep_lengths a act action reward) as (L1 & L2 & L3 & L4 & L5).
  unfold aligned. rewrite L1, L2, L3, L4, L5, H1, H2, H3, H4. repeat split.
Qed.

Lemma train_buffer_empty (a : PolicyGradientAgent) : buffer_empty (train a).
Proof.
  unfold buffer_empty, train, resetMemory. simpl. repeat split.
Qed.

Lemma buffer_empty_aligned (a : PolicyGradientAgent) :
  buffer_empty a -> aligned a.
Proof.
  intros (H1 & H2 & H3 & H4 & H5). unfold aligned.
  rewrite H1, H2, H3, H4, H5. repeat split.
Qed.

Lemma do_call_aligned (a : PolicyGradientAgent) (c : call) :
  aligned a -> aligned (do_call a c).
Proof.
  intros H. destruct c as [act action reward|]; simpl.
  - apply storeStep_aligned. exact H.
  - apply buffer_empty_aligned, train_buffer_empty.
Qed.

Lemma run_aligned (calls : list call) (a : PolicyGradientAgent) :
  aligned a -> aligned (run calls a).
Proof.
  unfold run. revert a. induction calls as [|c calls IH]; intros a H; simpl.
  - exact H.
  - apply IH, do_call_aligned, H.
Qed.

Lemma new_agent_aligned (draw1 draw2 : nat -> nat -> number) (H : nat)
    (lr g : number) :
  aligned (new_agent draw1 draw2 H lr g).
Proof.
  unfold aligned. simpl. repeat split.
Qed.

(** C7. The five episode arrays keep one length: [storeStep] appends one
    entry to each, [train] leaves all five empty, and so every sequence of
    [storeStep] and [train] calls on a freshly built agent (or on any agent
    whose arrays are aligned) ends with aligned arrays; a sequence that
    ends with [train] ends with the empty buffer. *)
Theorem buffer_alignment (calls : list call) (a : PolicyGradientAgent)
    (act : LayerActivations) (action reward : number)
    (draw1 draw2 : nat -> nat -> number) (H : nat) (lr g : number) :
  (let a' := storeStep a act action reward in
   length (episodeStates a') = S (length (episodeStates a))
   /\ length (episodeHiddens a') = S (length (episodeHiddens a))
   /\ length (episodeProbs a') = S (length (episodeProbs a))
   /\ length (episodeActions a') = S (length (episodeActions a))
   /\ length (episodeRewards a') = S (length (episodeRewards a)))
  /\ buffer_empty (train a)
  /\ aligned (run calls (new_agent draw1 draw2 H lr g))
  /\ (aligned a -> aligned (run calls a))
  /\ buffer_empty (run (calls ++ [Train]) a).
Proof.
  split; [apply storeStep_lengths|].
  split; [apply train_buffer_empty|].
  split; [apply run_aligned, new_agent_aligned|].
  split; [apply run_aligned|].
  unfold run. rewrite fold_left_app. simpl. apply train_buffer_empty.
Qed.

End BufferFacts.

(** ** The agent: discounted returns *)

Module ReturnsFacts.

Import JSNumber JSArray Types Agent Samples JSNumberFacts JSArrayFacts.
Local Open Scope float_scope.

(** What the backward loop leaves in [returns]: the cells from [k] on are
    kept, the cell [k - 1] holds the first running sum, and each cell
    below holds the next cell times [gamma] plus its reward. *)
Lemma returns_loop_spec (g : number) (rewards : list number) (k : nat) :
  forall (runningAdd : number) (returns : list number),
  let res := returns_loop g rewards k runningAdd returns in
  (k <= length returns -> length res = length returns)%nat
  /\ (forall t, (k <= t)%nat -> get res t = get returns t)
  /\ (forall t, k = S t -> get res t = runningAdd * g + get rewards t)
  /\ (forall t, (S t < k)%nat ->
        get res t = get res (S t) * g + get rewards t).
Proof.
  induction k as [|k IH]; intros runningAdd returns res.
  - repeat split; intros; try lia; reflexivity.
  - subst res. simpl.
    set (run' := runningAdd * g + get rewards k).
    destruct (IH run' (set returns k run')) as (Hlen & Hkeep & Hlast & Hrec).
    split; [|split; [|split]].
    + intros H. rewrite Hlen; rewrite length_set; lia.
    + intros t Ht. rewrite Hkeep by lia. apply get_set_neq. lia.
    + intros t Ht. injection Ht as <-.
      rewrite Hkeep by lia. apply get_set_eq.
    + intros t Ht. destruct (Nat.eq_dec (S t) k) as [E|E].
      * rewrite (Hlast t) by (symmetry; exact E).
        rewrite (Hkeep (S t)) by lia. rewrite E, get_set_eq. reflexivity.
      * apply Hrec. lia.
Qed.

Lemma length_train_returns (a : PolicyGradientAgent) :
  length (train_returns a) = length (episodeRewards a).
Proof.
  unfold train_returns.
  destruct (returns_loop_spec (gamma a) (episodeRewards a)
              (length (episodeRewards a)) 0
              (repeat 0 (length (episodeRewards a)))) as (Hlen & _).
  rewrite Hlen; rewrite repeat_length; lia.
Qed.

(** C2. For a finite discount, the returns that [train] computes satisfy
    [G[N-1] = r[N-1]] (as numbers: a reward [-0] gives the return [+0])
    and [G[t] = r[t] + gamma * G[t+1]] below; three rewards of 1 with
    [gamma = 0.99] give [G[0] = 1 + 0.99 + 0.99^2 = 2.9701]. *)
Theorem discounted_returns_recurrence (a : PolicyGradientAgent) :
  is_finite (gamma a) = true ->
  let N := length (episodeRewards a) in
  let G := train_returns a in
  length G = N
  /\ (forall t, N = S t ->
        same_value_zero (get G t) (get (episodeRewards a) t))
  /\ (forall t, (S t < N)%nat ->
        get G t = get (episodeRewards a) t + gamma a * get G (S t))
  /\ (gamma a = 0.99 -> episodeRewards a = [1; 1; 1] ->
        get G 0 = 2.9701 /\ 1 + 0.99 + 0.99 * 0.99 = 2.9701).
Proof.
  intros Hfin N G.
  split; [apply length_train_returns|].
  destruct (returns_loop_spec (gamma a) (episodeRewards a) N 0 (repeat 0 N))
    as (_ & _ & Hlast & Hrec).
  change (returns_loop (gamma a) (episodeRewards a) N 0 (repeat 0 N))
    with G in Hlast, Hrec.
  split; [|split].
  - intros t Ht. rewrite (Hlast t Ht). apply zero_mul_add. exact Hfin.
  - intros t Ht. rewrite (Hrec t Ht).
    rewrite add_comm, (mul_comm (get G (S t))). reflexivity.
  - intros Eg Er. subst G. unfold train_returns. rewrite Eg, Er.
    split; reflexivity.
Qed.

Lemma discounted_returns_three_steps :
  get (train_returns (sample_agent [1; 1; 1])) 0 = 2.9701
  /\ 1 + 0.99 + 0.99 * 0.99 = 2.9701.
Proof.
  apply (discounted_returns_recurrence (sample_agent [1; 1; 1]));
    reflexivity.
Defined.

End ReturnsFacts.

(** ** The agent: advantages *)

Module AdvantageFacts.

Import JSNumber JSArray Types Agent Reinforce Binary64 Samples.
Import JSNumberFacts JSArrayFacts RoundingFacts Binary64Facts ReturnsFacts.
Local Open Scope float_scope.

Lemma reduce_sum_list (l : list number) :
  reduce (fun a b => a + b) 0 l = sum_list l.
Proof. reflexivity. Qed.

Lemma reduce_squares (mean : number) (l : list number) (init : number) :
  reduce (fun a b => a + Math_pow2 (b - mean)) init l
  = fold_left add (map (fun r => (r - mean) * (r - mean)) l) init.
Proof.
  unfold reduce. revert init.
  induction l as [|r l IH]; intros init; simpl; [reflexivity|]. apply IH.
Qed.

Lemma mean_of_sample_mean (N : nat) (G : list number) :
  mean_of N G = sample_mean N G.
Proof. reflexivity. Qed.

Lemma std_of_population_std (N : nat) (G : list number) :
  std_of N G
  = let sigma := population_std N G in
    if is_zero sigma || is_nan sigma then 1 else sigma.
Proof.
  unfold std_of, population_std, js_or, truthy.
  rewrite reduce_squares, mean_of_sample_mean. fold (sum_list (map (fun r => (r - sample_mean N G) * (r - sample_mean N G)) G)).
  cbv zeta.
  destruct (is_zero _ || is_nan _); reflexivity.
Qed.

(** When every return is at distance zero from the mean, the sum of the
    squared deviations is [+0]. *)
Lemma squares_zero (mean : number) (l : list number) :
  Forall (fun r => is_zero (r - mean) = true) l ->
  reduce (fun a b => a + Math_pow2 (b - mean)) 0 l = 0.
Proof.
  unfold reduce. induction 1 as [|r l Hr Hl IH]; simpl; [reflexivity|].
  rewrite (pow2_zero _ Hr). exact IH.
Qed.

Lemma std_of_zero_deviation (N : nat) (G : list number) :
  Forall (fun r => is_zero (r - mean_of N G) = true) G ->
  std_of N G = 1.
Proof.
  intros H. unfold std_of. cbv zeta. rewrite (squares_zero _ _ H).
  unfold js_or. rewrite sqrt_zero_div_falsy. reflexivity.
Qed.

Lemma get_map (f : number -> number) (l : list number) (t : nat) :
  (t < length l)%nat -> get (map f l) t = f (get l t).
Proof.
  intros H. unfold get.
  rewrite (nth_indep _ nan (f nan)) by (rewrite length_map; exact H).
  apply map_nth.
Qed.

(** The first running sum of an episode whose last reward is 1. *)
Lemma zero_mul_add_one (g : number) : is_finite g = true -> 0 * g + 1 = 1.
Proof.
  intros Hg. apply Prim2SF_inj. rewrite add_spec, mul_spec.
  change (Prim2SF 0) with (S754_zero false).
  destruct (is_finite_inv g Hg) as [(s & E)|(s & m & e & E)]; rewrite E;
    destruct s; reflexivity.
Qed.

Lemma all_get_repeat (l : list number) (v : number) :
  (forall t, (t < length l)%nat -> get l t = v) -> l = repeat v (length l).
Proof.
  induction l as [|h l IH]; intros H; [reflexivity|].
  cbn [length repeat]. f_equal.
  - apply (H 0%nat). cbn. lia.
  - apply IH. intros t Ht. apply (H (S t)). cbn. lia.
Qed.

(** The returns of an episode with rewards 1 and a finite discount, when
    they are identical, are all 1. *)
Lemma identical_returns_ones (a : PolicyGradientAgent) :
  let N := length (episodeRewards a) in
  let G := train_returns a in
  Forall (fun r => r = 1) (episodeRewards a) ->
  is_finite (gamma a) = true ->
  (forall t u, (t < N)%nat -> (u < N)%nat -> get G t = get G u) ->
  G = repeat 1 N.
Proof.
  intros N G Hr Hg Hid.
  assert (HG : length G = N) by apply length_train_returns.
  rewrite <- HG. apply all_get_repeat. rewrite HG. intros t Ht.
  destruct N as [|k] eqn:EN; [lia|].
  rewrite (Hid t k) by lia.
  destruct (returns_loop_spec (gamma a) (episodeRewards a)
              (length (episodeRewards a)) 0
              (repeat 0 (length (episodeRewards a)))) as (_ & _ & Hlast & _).
  fold N in Hlast. rewrite EN in Hlast.
  change (get G k = 1). unfold G, train_returns. fold N. rewrite EN.
  rewrite (Hlast k eq_refl).
  replace (get (episodeRewards a) k) with 1.
  - apply zero_mul_add_one, Hg.
  - symmetry. rewrite Forall_forall in Hr. apply Hr. apply nth_In. fold N. lia.
Qed.

(** The mean of [N] ones is 1: their sum is exactly [N]. *)
Lemma mean_of_ones (N : nat) :
  (0 < N)%nat -> (Z.of_nat N < 2 ^ 53)%Z -> mean_of N (repeat 1 N) = 1.
Proof.
  intros H0 H. unfold mean_of. rewrite reduce_sum_list. unfold sum_list.
  rewrite (sum_ones N H0 H).
  apply (div_self _ _ _ _ (of_length_int N H0 H)).
Qed.

Lemma normalize_ones (N : nat) :
  (0 < N)%nat -> (Z.of_nat N < 2 ^ 53)%Z ->
  normalize N (repeat 1 N) = repeat 0 N.
Proof.
  intros H0 H. unfold normalize. cbv zeta.
  assert (Hall : Forall (fun r => is_zero (r - mean_of N (repeat 1 N)) = true)
                        (repeat 1 N)).
  { rewrite (mean_of_ones N H0 H). apply Forall_forall. intros r Hr.
    rewrite (repeat_spec _ _ _ Hr). reflexivity. }
  rewrite (std_of_zero_deviation N _ Hall), (mean_of_ones N H0 H).
  rewrite map_repeat. reflexivity.
Qed.

(** C3. The advantages are [(G[t] - mean) / sigma], with the sample mean
    and the population standard deviation of the returns, [sigma] being
    replaced by 1 when it is a zero; [sigma] is a number whenever the
    returns are finite.  On an episode as the driver stores them (every
    reward 1, fewer than 2^53 steps) and for a finite discount, returns
    that are all identical give advantages that are all exactly [+0],
    none of them [NaN]. *)
Theorem advantages_normalized (a : PolicyGradientAgent) :
  let N := length (episodeRewards a) in
  let G := train_returns a in
  let mean := sample_mean N G in
  let sigma := population_std N G in
  (is_nan sigma = false ->
     train_normReturns a
     = map (fun r => (r - mean) / (if is_zero sigma then 1 else sigma)) G)
  /\ ((0 < N)%nat -> (Z.of_nat N < 2 ^ 53)%Z ->
      Forall (fun r => is_finite r = true) G -> is_nan sigma = false)
  /\ ((0 < N)%nat -> (Z.of_nat N < 2 ^ 53)%Z ->
      Forall (fun r => r = 1) (episodeRewards a) ->
      is_finite (gamma a) = true ->
      (forall t u, (t < N)%nat -> (u < N)%nat -> get G t = get G u) ->
      forall t, (t < N)%nat ->
        get (train_normReturns a) t = 0
        /\ is_nan (get (train_normReturns a) t) = false).
Proof.
  intros N G mean sigma.
  split; [|split].
  - intros Hs. unfold train_normReturns, normalize. cbv zeta.
    fold N. fold G. rewrite std_of_population_std. cbv zeta.
    fold sigma. rewrite Hs, orb_false_r. reflexivity.
  - intros H0 H HG. apply (population_std_numeric N G H0 H HG).
  - intros H0 H Hr Hg Hid t Ht.
    assert (E : train_normReturns a = repeat 0 N).
    { pose proof (identical_returns_ones a Hr Hg Hid) as EG.
      cbv zeta in EG. fold N in EG.
      unfold train_normReturns. fold N. rewrite EG.
      apply normalize_ones; assumption. }
    rewrite E. unfold get. rewrite nth_repeat_lt by exact Ht.
    split; reflexivity.
Qed.

(** Three steps with the rewards 1: for the discount 0.99 the standard
    deviation is a number and divides the deviations; for the discount
    2^-60 the returns are 1, 1, 1 and the advantages 0, 0, 0. *)
Lemma advantages_normalized_flat_episode :
  train_normReturns (sample_agent [1; 1; 1])
  = map (fun r =>
           (r - sample_mean 3 (train_returns (sample_agent [1; 1; 1])))
           / (if is_zero
                   (population_std 3 (train_returns (sample_agent [1; 1; 1])))
              then 1
              else population_std 3 (train_returns (sample_agent [1; 1; 1]))))
        (train_returns (sample_agent [1; 1; 1]))
  /\ train_returns flat_returns_episode = [1; 1; 1]
  /\ forall t, (t < 3)%nat ->
       get (train_normReturns flat_returns_episode) t = 0
       /\ is_nan (get (train_normReturns flat_returns_episode) t) = false.
Proof.
  pose proof (advantages_normalized (sample_agent [1; 1; 1])) as S.
  pose proof (advantages_normalized flat_returns_episode) as F.
  cbv zeta in S, F.
  destruct S as (S1 & S2 & _). destruct F as (_ & _ & F).
  split; [|split; [reflexivity|]].
  - apply S1, S2.
    + cbv. lia.
    + reflexivity.
    + repeat constructor.
  - apply F.
    + cbv. lia.
    + reflexivity.
    + repeat constructor.
    + reflexivity.
    + intros t u Ht Hu. change (t < 3)%nat in Ht. change (u < 3)%nat in Hu.
      destruct t as [|[|[|t]]]; try lia;
        destruct u as [|[|[|u]]]; try lia; reflexivity.
Defined.

(** Rewards other than 1, which [step] never returns: the three returns
    are 0.1, their sum divided by 3 rounds to 0.10000000000000002, and
    every advantage is -1, not 0. *)
Example identical_returns_rounded_mean :
  train_returns identical_returns_episode = [0.1; 0.1; 0.1]
  /\ train_normReturns identical_returns_episode = [-1; -1; -1].
Proof.
  split; vm_compute; reflexivity.
Qed.

End AdvantageFacts.

(** ** The agent: the gradient step *)

Module TrainFacts.

Import JSNumber JSArray Types Agent Reinforce Samples.
Import JSNumberFacts JSArrayFacts.
Local Open Scope float_scope.

Lemma for_loop_sum (n : nat) (f : nat -> number) :
  for_loop n (fun t acc => acc + f t) 0 = sum_upto n f.
Proof.
  induction n as [|n IH]; [reflexivity|].
  rewrite for_loop_S, IH. reflexivity.
Qed.

Lemma sum_upto_ext (n : nat) (f f' : nat -> number) :
  (forall t, (t < n)%nat -> f t = f' t) -> sum_upto n f = sum_upto n f'.
Proof.
  induction n as [|n IH]; intros H; simpl; [reflexivity|].
  rewrite IH, H by (intros; try apply H; lia). reflexivity.
Qed.

Lemma get_zeros (l : list number) (i : nat) :
  (i < length l)%nat -> get (map (fun _ => 0) l) i = 0.
Proof.
  unfold get. revert i.
  induction l as [|v l IH]; intros [|i] H; simpl in *; try lia.
  - reflexivity.
  - apply IH. lia.
Qed.

Lemma get2_zeros (c : nat) (m : list (list number)) (i j : nat) :
  Forall (fun row => length row = c) m ->
  (i < length m)%nat -> (j < c)%nat ->
  get2 (map (fun row => map (fun _ => 0) row) m) i j = 0.
Proof.
  intros Hrows. unfold get2. revert i.
  induction Hrows as [|row m Hrow Hm IH]; intros [|i] Hi Hj; simpl in *;
    try lia.
  - apply get_zeros. lia.
  - apply IH; lia.
Qed.

(** The two entries of [dLogits]. *)
Lemma get_dLogits (prob : list number) (action : number) (o : nat) :
  (o < outputSize)%nat ->
  get (set (set [0; 0] 0 (get prob 0 - (if strict_eq action 0 then 1 else 0)))
         1 (get prob 1 - (if strict_eq action 1 then 1 else 0))) o
  = get prob o - onehot action o.
Proof.
  unfold outputSize. intros H.
  destruct o as [|[|o]]; [reflexivity|reflexivity|lia].
Qed.

(** The loop body of [train] as four independent loop nests. *)
Lemma backprop_step_unfold (a : PolicyGradientAgent) (nr : list number)
    (t : nat) (g : Gradients) :
  let prob := nth t (episodeProbs a) [] in
  let action := get (episodeActions a) t in
  let hidden := nth t (episodeHiddens a) [] in
  let input := nth t (episodeStates a) [] in
  let adv := get nr t in
  let dLogits :=
    set (set [0; 0] 0 (get prob 0 - (if strict_eq action 0 then 1 else 0)))
      1 (get prob 1 - (if strict_eq action 1 then 1 else 0)) in
  let dHidden :=
    for_loop (hiddenSize a)
      (fun h acc =>
         set acc h
           ((fun h (_ : number) =>
               for_loop outputSize
                 (fun o sum => sum + get dLogits o * adv * get2 (w2 a) h o) 0
               * (1 - get hidden h * get hidden h)) h (get acc h)))
      (repeat 0 (hiddenSize a)) in
  backprop_step a nr t g
  = mkGradients
      (for_loop outputSize
         (fun o acc =>
            for_loop (hiddenSize a)
              (fun h acc =>
                 set2 acc h o
                   ((fun h o v => v + get hidden h * (get dLogits o * adv))
                      h o (get2 acc h o))) acc)
         (dW2 g))
      (for_loop outputSize
         (fun o acc =>
            set acc o ((fun o v => v + get dLogits o * adv) o (get acc o)))
         (db2 g))
      (for_loop (hiddenSize a)
         (fun h acc =>
            for_loop inputSize
              (fun i acc =>
                 set2 acc i h
                   ((fun i h v => v + get input i * get dHidden h)
                      i h (get2 acc i h))) acc)
         (dW1 g))
      (for_loop (hiddenSize a)
         (fun h acc => set acc h ((fun h v => v + get dHidden h) h (get acc h)))
         (db1 g)).
Proof.
  intros prob action hidden input adv dLogits dHidden.
  unfold backprop_step.
  fold prob. fold action. fold hidden. fold input. fold adv.
  cbv zeta. fold dLogits.
  rewrite (for_loop_pair outputSize
             (fun o acc => set acc o (get acc o + get dLogits o * adv))
             (fun o acc =>
                for_loop (hiddenSize a)
                  (fun h acc =>
                     set2 acc h o
                       (get2 acc h o + get hidden h * (get dLogits o * adv)))
                  acc)).
  fold dHidden.
  rewrite (for_loop_pair (hiddenSize a)
             (fun h acc => set acc h (get acc h + get dHidden h))
             (fun h acc =>
                for_loop inputSize
                  (fun i acc =>
                     set2 acc i h (get2 acc i h + get input i * get dHidden h))
                  acc)).
  reflexivity.
Qed.

(** One iteration of the loop over [t] adds, to every accumulator cell,
    the term of step [t]. *)
Lemma backprop_step_spec (a : PolicyGradientAgent) (t : nat) (g : Gradients) :
  length (dW2 g) = hiddenSize a ->
  length (dW1 g) = inputSize ->
  let g' := backprop_step a (train_normReturns a) t g in
  let hid := fun h => get (nth t (episodeHiddens a) []) h in
  let inp := fun i => get (nth t (episodeStates a) []) i in
  length (dW2 g') = hiddenSize a
  /\ length (dW1 g') = inputSize
  /\ (forall h o, (h < hiddenSize a)%nat -> (o < outputSize)%nat ->
        get2 (dW2 g') h o = get2 (dW2 g) h o + hid h * output_error a t o)
  /\ (forall o, (o < outputSize)%nat ->
        get (db2 g') o = get (db2 g) o + output_error a t o)
  /\ (forall i h, (i < inputSize)%nat -> (h < hiddenSize a)%nat ->
        get2 (dW1 g') i h = get2 (dW1 g) i h + inp i * hidden_error a t h)
  /\ (forall h, (h < hiddenSize a)%nat ->
        get (db1 g') h = get (db1 g) h + hidden_error a t h).
Proof.
  intros L2 L1 g' hid inp.
  pose (prob := nth t (episodeProbs a) []).
  pose (action := get (episodeActions a) t).
  pose (adv := get (train_normReturns a) t).
  pose (dLogits :=
    set (set [0; 0] 0 (get prob 0 - (if strict_eq action 0 then 1 else 0)))
      1 (get prob 1 - (if strict_eq action 1 then 1 else 0))).
  pose (FH := fun (h : nat) (_ : number) =>
    for_loop outputSize
      (fun o sum => sum + get dLogits o * adv * get2 (w2 a) h o) 0
    * (1 - hid h * hid h)).
  pose (dHidden :=
    for_loop (hiddenSize a) (fun h acc => set acc h (FH h (get acc h)))
      (repeat 0 (hiddenSize a))).
  pose (GW2 := fun (h o : nat) (v : number) => v + hid h * (get dLogits o * adv)).
  pose (Fb2 := fun (o : nat) (v : number) => v + get dLogits o * adv).
  pose (GW1 := fun (i h : nat) (v : number) => v + inp i * get dHidden h).
  pose (Fb1 := fun (h : nat) (v : number) => v + get dHidden h).
  assert (EQ : g' = mkGradients
      (for_loop outputSize
         (fun o acc =>
            for_loop (hiddenSize a)
              (fun h acc => set2 acc h o (GW2 h o (get2 acc h o))) acc)
         (dW2 g))
      (for_loop outputSize (fun o acc => set acc o (Fb2 o (get acc o))) (db2 g))
      (for_loop (hiddenSize a)
         (fun h acc =>
            for_loop inputSize
              (fun i acc => set2 acc i h (GW1 i h (get2 acc i h))) acc)
         (dW1 g))
      (for_loop (hiddenSize a) (fun h acc => set acc h (Fb1 h (get acc h)))
         (db1 g)))
    by exact (backprop_step_unfold a (train_normReturns a) t g).
  rewrite EQ. clear EQ. cbn [dW2 db2 dW1 db1].
  assert (HE : forall o, (o < outputSize)%nat ->
            get dLogits o * adv = output_error a t o).
  { intros o Ho. subst dLogits. rewrite get_dLogits by exact Ho. reflexivity. }
  assert (HD : forall h, (h < hiddenSize a)%nat ->
            get dHidden h = hidden_error a t h).
  { intros h Hh. subst dHidden.
    destruct (loop_vec FH (hiddenSize a) (repeat 0 (hiddenSize a)))
      as (_ & Hget).
    rewrite Hget.
    replace (h <? hiddenSize a)%nat with true
      by (symmetry; apply Nat.ltb_lt; exact Hh).
    unfold FH. rewrite for_loop_sum.
    rewrite (sum_upto_ext outputSize _
               (fun o => output_error a t o * get2 (w2 a) h o));
      [reflexivity|].
    intros o Ho. rewrite HE by exact Ho. reflexivity. }
  destruct (loop_columns GW2 (hiddenSize a) outputSize (dW2 g))
    as (LW2 & _ & GetW2); [lia|].
  destruct (loop_vec Fb2 outputSize (db2 g)) as (_ & Getb2).
  destruct (loop_columns GW1 inputSize (hiddenSize a) (dW1 g))
    as (LW1 & _ & GetW1); [lia|].
  destruct (loop_vec Fb1 (hiddenSize a) (db1 g)) as (_ & Getb1).
  split; [rewrite LW2; exact L2|].
  split; [rewrite LW1; exact L1|].
  split; [|split; [|split]].
  - intros h o Hh Ho. rewrite GetW2.
    replace (h <? hiddenSize a)%nat with true
      by (symmetry; apply Nat.ltb_lt; exact Hh).
    replace (o <? outputSize)%nat with true
      by (symmetry; apply Nat.ltb_lt; exact Ho).
    cbn [andb]. unfold GW2. rewrite HE by exact Ho. reflexivity.
  - intros o Ho. rewrite Getb2.
    replace (o <? outputSize)%nat with true
      by (symmetry; apply Nat.ltb_lt; exact Ho).
    unfold Fb2. rewrite HE by exact Ho. reflexivity.
  - intros i h Hi Hh. rewrite GetW1.
    replace (i <? inputSize)%nat with true
      by (symmetry; apply Nat.ltb_lt; exact Hi).
    replace (h <? hiddenSize a)%nat with true
      by (symmetry; apply Nat.ltb_lt; exact Hh).
    cbn [andb]. unfold GW1. rewrite HD by exact Hh. reflexivity.
  - intros h Hh. rewrite Getb1.
    replace (h <? hiddenSize a)%nat with true
      by (symmetry; apply Nat.ltb_lt; exact Hh).
    unfold Fb1. rewrite HD by exact Hh. reflexivity.
Qed.

(** After the loop over [t], every accumulator cell inside the shapes
    holds the gradient summed over the episode. *)
Lemma train_gradients_spec (a : PolicyGradientAgent) :
  wf_agent a ->
  let g := train_gradients a in
  (forall h o, (h < hiddenSize a)%nat -> (o < outputSize)%nat ->
     get2 (dW2 g) h o = grad_W2 a h o)
  /\ (forall o, (o < outputSize)%nat -> get (db2 g) o = grad_b2 a o)
  /\ (forall i h, (i < inputSize)%nat -> (h < hiddenSize a)%nat ->
        get2 (dW1 g) i h = grad_W1 a i h)
  /\ (forall h, (h < hiddenSize a)%nat -> get (db1 g) h = grad_b1 a h).
Proof.
  intros (W1len & W1rows & B1len & W2len & W2rows & B2len) g.
  subst g. unfold train_gradients, grad_W2, grad_b2, grad_W1, grad_b1.
  cbv zeta.
  generalize (length (episodeRewards a)). intros N.
  pose (Inv := fun (n : nat) (g : Gradients) =>
    length (dW2 g) = hiddenSize a
    /\ length (dW1 g) = inputSize
    /\ (forall h o, (h < hiddenSize a)%nat -> (o < outputSize)%nat ->
          get2 (dW2 g) h o
          = sum_upto n (fun t => get (nth t (episodeHiddens a) []) h
                                 * output_error a t o))
    /\ (forall o, (o < outputSize)%nat ->
          get (db2 g) o = sum_upto n (fun t => output_error a t o))
    /\ (forall i h, (i < inputSize)%nat -> (h < hiddenSize a)%nat ->
          get2 (dW1 g) i h
          = sum_upto n (fun t => get (nth t (episodeStates a) []) i
                                 * hidden_error a t h))
    /\ (forall h, (h < hiddenSize a)%nat ->
          get (db1 g) h = sum_upto n (fun t => hidden_error a t h))).
  refine (proj2 (proj2 (for_loop_ind Inv N _ _ _ _))); unfold Inv.
  - cbn [dW2 db2 dW1 db1 sum_upto]. rewrite !length_map.
    split; [exact W2len|]. split; [exact W1len|].
    split; [|split; [|split]].
    + intros h o Hh Ho. apply (get2_zeros outputSize); [exact W2rows|lia|exact Ho].
    + intros o Ho. apply get_zeros. lia.
    + intros i h Hi Hh.
      apply (get2_zeros (hiddenSize a)); [exact W1rows|lia|exact Hh].
    + intros h Hh. apply get_zeros. lia.
  - intros t g _ (L2 & L1 & HW2 & Hb2 & HW1 & Hb1).
    destruct (backprop_step_spec a t g L2 L1)
      as (L2' & L1' & SW2 & Sb2 & SW1 & Sb1).
    split; [exact L2'|]. split; [exact L1'|].
    cbn [sum_upto].
    split; [|split; [|split]].
    + intros h o Hh Ho. rewrite SW2, HW2 by assumption. reflexivity.
    + intros o Ho. rewrite Sb2, Hb2 by assumption. reflexivity.
    + intros i h Hi Hh. rewrite SW1, HW1 by assumption. reflexivity.
    + intros h Hh. rewrite Sb1, Hb1 by assumption. reflexivity.
Qed.

(** The loops under [// Apply gradients]. *)
Lemma apply_matrix_spec (rows cols : nat) (lr : number)
    (w dW : list (list number)) :
  length w = rows ->
  Forall (fun row => length row = cols) w ->
  let w' := apply_matrix rows cols lr w dW in
  length w' = rows
  /\ Forall (fun row => length row = cols) w'
  /\ forall i j, (i < rows)%nat -> (j < cols)%nat ->
       get2 w' i j = get2 w i j - lr * get2 dW i j.
Proof.
  intros Hlen Hrows w'. subst w'. unfold apply_matrix.
  destruct (loop_rows (fun i j v => v - lr * get2 dW i j) rows cols w)
    as (L & R & G); [lia|].
  split; [rewrite L; exact Hlen|].
  split; [apply R; [lia|exact Hrows]|].
  intros i j Hi Hj. rewrite G.
  replace (i <? rows)%nat with true by (symmetry; apply Nat.ltb_lt; exact Hi).
  replace (j <? cols)%nat with true by (symmetry; apply Nat.ltb_lt; exact Hj).
  reflexivity.
Qed.

Lemma apply_vector_spec (n : nat) (lr : number) (b db : list number) :
  length b = n ->
  let b' := apply_vector n lr b db in
  length b' = n
  /\ forall i, (i < n)%nat -> get b' i = get b i - lr * get db i.
Proof.
  intros Hlen b'. subst b'. unfold apply_vector.
  destruct (loop_vec (fun i v => v - lr * get db i) n b) as (L & G).
  split; [rewrite L; [exact Hlen|lia]|].
  intros i Hi. rewrite G.
  replace (i <? n)%nat with true by (symmetry; apply Nat.ltb_lt; exact Hi).
  reflexivity.
Qed.

(** [train] on a well-shaped agent: every parameter loses the learning
    rate times its gradient, the shapes and the settings are kept. *)
Lemma train_parameters (a : PolicyGradientAgent) :
  wf_agent a ->
  let a' := train a in
  let lr := learningRate a in
  (forall h o, (h < hiddenSize a)%nat -> (o < outputSize)%nat ->
     get2 (w2 a') h o = get2 (w2 a) h o - lr * grad_W2 a h o)
  /\ (forall o, (o < outputSize)%nat ->
        get (b2 a') o = get (b2 a) o - lr * grad_b2 a o)
  /\ (forall i h, (i < inputSize)%nat -> (h < hiddenSize a)%nat ->
        get2 (w1 a') i h = get2 (w1 a) i h - lr * grad_W1 a i h)
  /\ (forall h, (h < hiddenSize a)%nat ->
        get (b1 a') h = get (b1 a) h - lr * grad_b1 a h)
  /\ wf_agent a'
  /\ hiddenSize a' = hiddenSize a
  /\ learningRate a' = learningRate a
  /\ gamma a' = gamma a.
Proof.
  intros Hwf a' lr.
  destruct (train_gradients_spec a Hwf) as (GW2 & Gb2 & GW1 & Gb1).
  destruct Hwf as (W1len & W1rows & B1len & W2len & W2rows & B2len).
  subst a'. unfold train, resetMemory.
  cbn [w1 b1 w2 b2 hiddenSize learningRate gamma].
  destruct (apply_matrix_spec inputSize (hiddenSize a) lr (w1 a)
              (dW1 (train_gradients a)) W1len W1rows) as (LW1 & RW1 & AW1).
  destruct (apply_vector_spec (hiddenSize a) lr (b1 a)
              (db1 (train_gradients a)) B1len) as (LB1 & AB1).
  destruct (apply_matrix_spec (hiddenSize a) outputSize lr (w2 a)
              (dW2 (train_gradients a)) W2len W2rows) as (LW2 & RW2 & AW2).
  destruct (apply_vector_spec outputSize lr (b2 a)
              (db2 (train_gradients a)) B2len) as (LB2 & AB2).
  split; [|split; [|split; [|split; [|split]]]].
  - intros h o Hh Ho. rewrite AW2, GW2 by assumption. reflexivity.
  - intros o Ho. rewrite AB2, Gb2 by assumption. reflexivity.
  - intros i h Hi Hh. rewrite AW1, GW1 by assumption. reflexivity.
  - intros h Hh. rewrite AB1, Gb1 by assumption. reflexivity.
  - unfold wf_agent. cbn [w1 b1 w2 b2 hiddenSize]. repeat split; assumption.
  - repeat split.
Qed.

(** C1. On a well-shaped agent with aligned episode arrays, [train] is the
    full-batch REINFORCE step: the output error of step [t] is
    [(p[t] - onehot(action[t])) * advantage[t]]; the gradients of [W2] and
    [b2] sum, over [t], the hidden activations times that error and the
    error itself; the gradients of [W1] and [b1] sum the inputs times the
    hidden error (the output errors through [W2], times [1 - h^2]) and the
    hidden error itself; every parameter is decreased by the learning rate
    times its gradient. *)
Theorem train_is_reinforce_step (a : PolicyGradientAgent) :
  wf_agent a -> aligned a ->
  let a' := train a in
  let lr := learningRate a in
  let N := length (episodeRewards a) in
  let p := fun t o => get (nth t (episodeProbs a) []) o in
  let hid := fun t h => get (nth t (episodeHiddens a) []) h in
  let inp := fun t i => get (nth t (episodeStates a) []) i in
  let err := fun t o =>
    (p t o - onehot (get (episodeActions a) t) o) * advantage a t in
  let herr := fun t h =>
    sum_upto outputSize (fun o => err t o * get2 (w2 a) h o)
    * (1 - hid t h * hid t h) in
  (forall h o, (h < hiddenSize a)%nat -> (o < outputSize)%nat ->
     get2 (w2 a') h o
     = get2 (w2 a) h o - lr * sum_upto N (fun t => hid t h * err t o))
  /\ (forall o, (o < outputSize)%nat ->
        get (b2 a') o = get (b2 a) o - lr * sum_upto N (fun t => err t o))
  /\ (forall i h, (i < inputSize)%nat -> (h < hiddenSize a)%nat ->
        get2 (w1 a') i h
        = get2 (w1 a) i h - lr * sum_upto N (fun t => inp t i * herr t h))
  /\ (forall h, (h < hiddenSize a)%nat ->
        get (b1 a') h = get (b1 a) h - lr * sum_upto N (fun t => herr t h))
  /\ wf_agent a'.
Proof.
  intros Hwf _ a' lr N p hid inp err herr.
  destruct (train_parameters a Hwf) as (HW2 & Hb2 & HW1 & Hb1 & Hwf' & _).
  split; [exact HW2|]. split; [exact Hb2|]. split; [exact HW1|].
  split; [exact Hb1|exact Hwf'].
Qed.

(** Arrays of one shape with the same cells are the same array. *)
Lemma vector_ext (l l' : list number) :
  length l = length l' ->
  (forall i, (i < length l)%nat -> get l i = get l' i) -> l = l'.
Proof.
  intros Hlen Hget. apply (nth_ext l l' nan nan Hlen). exact Hget.
Qed.

Lemma matrix_ext (c : nat) (m m' : list (list number)) :
  length m = length m' ->
  Forall (fun row => length row = c) m ->
  Forall (fun row => length row = c) m' ->
  (forall i j, (i < length m)%nat -> (j < c)%nat -> get2 m i j = get2 m' i j) ->
  m = m'.
Proof.
  intros Hlen Hm Hm' Hget. apply (nth_ext m m' [] [] Hlen).
  intros i Hi.
  assert (Li : length (nth i m []) = c).
  { rewrite Forall_forall in Hm. apply Hm, nth_In, Hi. }
  assert (Li' : length (nth i m' []) = c).
  { rewrite Forall_forall in Hm'. apply Hm', nth_In. rewrite <- Hlen. exact Hi. }
  apply vector_ext; [rewrite Li, Li'; reflexivity|].
  intros j Hj. apply (Hget i j Hi). rewrite <- Li. exact Hj.
Qed.

(** With no step in the buffer every gradient is the empty sum. *)
Lemma empty_gradients (a : PolicyGradientAgent) :
  episodeRewards a = [] ->
  (forall h o, grad_W2 a h o = 0) /\ (forall o, grad_b2 a o = 0)
  /\ (forall i h, grad_W1 a i h = 0) /\ (forall h, grad_b1 a h = 0).
Proof.
  intros E. unfold grad_W2, grad_b2, grad_W1, grad_b1. rewrite E.
  repeat split.
Qed.

(** C9. [train] on an empty buffer, for a well-shaped agent with a positive
    finite learning rate: the four parameter arrays are left as they were
    (each cell loses [learningRate * 0 = 0]) and the buffer stays empty;
    the call returns the agent it was given. *)
Theorem train_empty_is_noop (a : PolicyGradientAgent) :
  wf_agent a -> buffer_empty a ->
  (0 <? learningRate a) = true -> (learningRate a <? infinity) = true ->
  w1 (train a) = w1 a /\ b1 (train a) = b1 a
  /\ w2 (train a) = w2 a /\ b2 (train a) = b2 a
  /\ buffer_empty (train a)
  /\ train a = a.
Proof.
  intros Hwf Hempty Hpos Hfin.
  destruct (train_parameters a Hwf)
    as (HW2 & Hb2 & HW1 & Hb1 & Hwf' & HH & Hlr & Hg).
  destruct Hempty as (E1 & E2 & E3 & E4 & E5).
  destruct (empty_gradients a E5) as (ZW2 & Zb2 & ZW1 & Zb1).
  assert (Hkeep : forall v, v - learningRate a * 0 = v).
  { intros v. rewrite (mul_pos_zero _ Hpos Hfin). apply sub_zero. }
  destruct Hwf as (W1len & W1rows & B1len & W2len & W2rows & B2len).
  destruct Hwf' as (W1len' & W1rows' & B1len' & W2len' & W2rows' & B2len').
  rewrite HH in W1rows', B1len', W2len'.
  assert (EW1 : w1 (train a) = w1 a).
  { apply (matrix_ext (hiddenSize a)); [lia|assumption|assumption|].
    intros i j Hi Hj. rewrite HW1, ZW1 by lia. apply Hkeep. }
  assert (EB1 : b1 (train a) = b1 a).
  { apply vector_ext; [lia|].
    intros i Hi. rewrite Hb1, Zb1 by lia. apply Hkeep. }
  assert (EW2 : w2 (train a) = w2 a).
  { apply (matrix_ext outputSize); [lia|assumption|assumption|].
    intros i j Hi Hj. rewrite HW2, ZW2 by lia. apply Hkeep. }
  assert (EB2 : b2 (train a) = b2 a).
  { apply vector_ext; [lia|].
    intros i Hi. rewrite Hb2, Zb2 by lia. apply Hkeep. }
  repeat (split; [assumption|]).
  split; [unfold buffer_empty, train, resetMemory; simpl; repeat split|].
  destruct a as [H lr g W1 B1 W2 B2 S Hs P A R].
  cbn [w1 b1 w2 b2 hiddenSize learningRate gamma episodeStates episodeHiddens
       episodeProbs episodeActions episodeRewards] in *.
  subst S Hs P A R.
  change (train (mkAgent H lr g W1 B1 W2 B2 [] [] [] [] []))
    with (mkAgent H lr g
            (w1 (train (mkAgent H lr g W1 B1 W2 B2 [] [] [] [] [])))
            (b1 (train (mkAgent H lr g W1 B1 W2 B2 [] [] [] [] [])))
            (w2 (train (mkAgent H lr g W1 B1 W2 B2 [] [] [] [] [])))
            (b2 (train (mkAgent H lr g W1 B1 W2 B2 [] [] [] [] [])))
            [] [] [] [] []).
  rewrite EW1, EB1, EW2, EB2. reflexivity.
Qed.

Lemma sample_agent_wf (rewards : list number) : wf_agent (sample_agent rewards).
Proof.
  unfold wf_agent. simpl. repeat split; repeat constructor.
Qed.

Lemma sample_agent_aligned (rewards : list number) :
  aligned (sample_agent rewards).
Proof.
  unfold aligned. simpl. rewrite !length_map. repeat split.
Qed.

Lemma train_is_reinforce_step_sample :
  wf_agent (train (sample_agent [1; 1; 1])).
Proof.
  apply (train_is_reinforce_step (sample_agent [1; 1; 1])).
  - apply sample_agent_wf.
  - apply sample_agent_aligned.
Defined.

Lemma train_empty_is_noop_sample : train (sample_agent []) = sample_agent [].
Proof.
  apply (train_empty_is_noop (sample_agent [])).
  - apply sample_agent_wf.
  - unfold buffer_empty. simpl. repeat split.
  - reflexivity.
  - reflexivity.
Defined.

(** Outside that range the update is not neutral: an infinite learning
    rate turns every parameter into NaN, even on the empty buffer. *)
Example train_empty_infinite_rate :
  let a := mkAgent 1 infinity 0.99 [[1]; [1]; [1]; [1]] [0] [[1; 1]] [0; 0]
             [] [] [] [] [] in
  b2 (train a) = [nan; nan].
Proof.
  vm_compute. reflexivity.
Qed.

End TrainFacts.

(** ** The shape invariant *)

Module InvariantFacts.

Import JSNumber JSArray Types MathTs Agent TrainFacts.

Lemma randomMatrix_shape (draw : nat -> nat -> number) (rows cols : nat) :
  length (randomMatrix draw rows cols) = rows
  /\ Forall (fun row => length row = cols) (randomMatrix draw rows cols).
Proof.
  unfold randomMatrix. split.
  - rewrite length_map, length_seq. reflexivity.
  - apply Forall_forall. intros row Hrow.
    apply in_map_iff in Hrow. destruct Hrow as (i & <- & _).
    rewrite length_map, length_seq. reflexivity.
Qed.

(** The constructor builds a well-shaped agent. *)
Lemma new_agent_wf (draw1 draw2 : nat -> nat -> number) (H : nat)
    (lr g : number) :
  wf_agent (new_agent draw1 draw2 H lr g).
Proof.
  unfold wf_agent, new_agent, zeroVector.
  cbn [w1 b1 w2 b2 hiddenSize].
  destruct (randomMatrix_shape draw1 inputSize H) as (L1 & R1).
  destruct (randomMatrix_shape draw2 H outputSize) as (L2 & R2).
  rewrite !repeat_length. repeat split; assumption.
Qed.

Lemma storeStep_wf (a : PolicyGradientAgent) (act : LayerActivations)
    (action reward : number) :
  wf_agent a -> wf_agent (storeStep a act action reward).
Proof.
  intros H. exact H.
Qed.

Lemma train_wf (a : PolicyGradientAgent) : wf_agent a -> wf_agent (train a).
Proof.
  intros H. apply (train_parameters a H).
Qed.

(** Every agent that the driver can reach is well-shaped. *)
Lemma run_wf (calls : list call) (a : PolicyGradientAgent) :
  wf_agent a -> wf_agent (run calls a).
Proof.
  unfold run. revert a. induction calls as [|c calls IH]; intros a H; simpl.
  - exact H.
  - apply IH. destruct c; simpl; [apply storeStep_wf|apply train_wf]; exact H.
Qed.

End InvariantFacts.

(** ** The agent: the forward pass *)

Module PredictFacts.

Import JSNumber JSArray Types MathTs Agent Reinforce Policy Samples.
Import JSArrayFacts MaxFacts TrainFacts.
Local Open Scope float_scope.

Lemma fold_left_seq_shift {S : Type} (F : nat -> S -> S) (k n : nat) (s : S) :
  fold_left (fun acc i => F i acc) (seq (Datatypes.S k) n) s
  = fold_left (fun acc i => F (Datatypes.S i) acc) (seq k n) s.
Proof.
  revert k s. induction n as [|n IH]; intros k s; simpl; [reflexivity|].
  apply IH.
Qed.

Lemma fold_left_pointwise {A B : Type} (f g : A -> B -> A) (l : list B)
    (a : A) :
  (forall acc v, f acc v = g acc v) -> fold_left f l a = fold_left g l a.
Proof.
  intros H. revert a. induction l as [|v l IH]; intros a; simpl;
    [reflexivity|].
  rewrite H. apply IH.
Qed.

(** The index loop of a dot product is the fold over the paired lists. *)
Lemma dot_loop (xs ws : list number) (b : number) :
  length ws = length xs ->
  for_loop (length xs) (fun i sum => sum + get xs i * get ws i) b
  = affine b xs ws.
Proof.
  unfold for_loop, affine. revert ws b.
  induction xs as [|x xs IH]; intros [|w ws] b H; simpl in *; try lia.
  - reflexivity.
  - rewrite (fold_left_seq_shift
               (fun i sum => sum + get (x :: xs) i * get (w :: ws) i)).
    apply IH. lia.
Qed.

Lemma get_column (W : list (list number)) (i j : nat) :
  get (column W j) i = get2 W i j.
Proof.
  unfold column, get2, get. revert i.
  induction W as [|row W IH]; intros [|i]; simpl; try reflexivity;
    try (destruct j; reflexivity).
  apply IH.
Qed.

Lemma mapi_from_seq {A B : Type} (d : A) (f : A -> nat -> B) (l : list A)
    (k : nat) :
  mapi_from k f l
  = map (fun i => f (nth (i - k) l d) i) (seq k (length l)).
Proof.
  revert k. induction l as [|v l IH]; intros k; simpl; [reflexivity|].
  rewrite Nat.sub_diag. f_equal.
  rewrite IH. apply map_ext_in. intros i Hi. apply in_seq in Hi.
  replace (i - k)%nat with (S (i - S k)) by lia. reflexivity.
Qed.

Lemma mapi_seq (f : number -> nat -> number) (l : list number) :
  mapi f l = map (fun i => f (get l i) i) (seq 0 (length l)).
Proof.
  unfold mapi. rewrite (mapi_from_seq nan).
  apply map_ext. intros i. rewrite Nat.sub_0_r. reflexivity.
Qed.

Section Forward.

Variables Math_tanh Math_exp : number -> number.

Lemma softmax_stable (z : list number) :
  softmax Math_exp z = stable_softmax Math_exp z.
Proof.
  unfold softmax, stable_softmax, reduce, sum_list. cbv zeta.
  rewrite map_map. reflexivity.
Qed.

(** C5. On a well-shaped agent, [predict] returns the input vector
    [x = (x, xDot, theta, thetaDot)], the hidden vector
    [h = tanh(W1^T x + b1)], the probabilities [p = softmax(W2^T h + b2)]
    computed with [Math.max] of the logits subtracted (which is not below
    any logit when none is NaN), and the action 0 when the draw of
    [Math.random()] is below [p[0]], the action 1 otherwise; the agent is
    the same after the call. *)
Theorem predict_forward_pass (a : PolicyGradientAgent)
    (state : CartPoleState) (random : number) :
  wf_agent a ->
  let r := predict Math_tanh Math_exp a state random in
  let action := fst (snd r) in
  let act := snd (snd r) in
  let x := [Types.x state; xDot state; theta state; thetaDot state] in
  let h := hidden_layer Math_tanh a x in
  let z := logits_layer a h in
  let p := stable_softmax Math_exp z in
  input act = x /\ hidden act = h /\ output act = p
  /\ action = (if random <? get p 0 then 0 else 1)
  /\ (Forall (fun v => is_nan v = false) z ->
      Forall (fun v => (v <=? Math_max z) = true) z)
  /\ fst r = a.
Proof.
  intros (W1len & W1rows & B1len & W2len & W2rows & B2len) r action act x h z
    p.
  assert (Hh : hidden act = h).
  { subst act r h. unfold predict, hidden_layer. cbn [snd hidden].
    rewrite mapi_seq, B1len. apply map_ext. intros j. f_equal.
    rewrite <- (dot_loop x (column (w1 a) j) (get (b1 a) j))
      by (unfold column; rewrite length_map; exact W1len).
    change (length x) with inputSize.
    unfold for_loop. apply fold_left_pointwise. intros sum i.
    rewrite get_column. reflexivity. }
  assert (Hp : output act = p).
  { subst act r p z. unfold predict in *. cbn [snd hidden output] in *.
    rewrite softmax_stable. f_equal.
    unfold logits_layer. rewrite mapi_seq, B2len. apply map_ext. intros o.
    rewrite Hh.
    assert (Lh : length h = hiddenSize a).
    { unfold h, hidden_layer. rewrite length_map, length_seq. reflexivity. }
    rewrite <- (dot_loop h (column (w2 a) o) (get (b2 a) o))
      by (unfold column; rewrite length_map, Lh; exact W2len).
    rewrite Lh. unfold for_loop. apply fold_left_pointwise. intros sum i.
    rewrite get_column. reflexivity. }
  split; [reflexivity|]. split; [exact Hh|]. split; [exact Hp|].
  split; [rewrite <- Hp; reflexivity|].
  split; [|reflexivity].
  intros Hz. apply (Math_max_is_maximum z Hz).
Qed.

End Forward.

Lemma predict_forward_pass_sample :
  let state := mkState 0.01 0.02 (-0.01) 0.03 in
  let r := predict sample_tanh sample_exp (sample_agent []) state 0.5 in
  input (snd (snd r)) = [0.01; 0.02; -0.01; 0.03]
  /\ hidden (snd (snd r))
     = hidden_layer sample_tanh (sample_agent []) [0.01; 0.02; -0.01; 0.03]
  /\ fst r = sample_agent [].
Proof.
  intros state r.
  destruct (predict_forward_pass sample_tanh sample_exp (sample_agent [])
              state 0.5 (sample_agent_wf []))
    as (Hx & Hh & _ & _ & _ & Ha).
  split; [exact Hx|]. split; [exact Hh|exact Ha].
Defined.

End PredictFacts.

(** ** [getWeights]: results *)

Module AliasingFacts.

Import JSNumber JSArray JSArrayFacts Aliasing.

Lemma sample_heap_wf : heap_wf sample_heap.
Proof.
  intros r Hr. cbn in Hr.
  do 10 (destruct r as [|r]; [lia|]). reflexivity.
Qed.

(** C8, as stated, fails: the caller writes [weights.b1[0] = 5] into the
    object that [getWeights] returned, and the live [b1] of the agent,
    which was [[0]], is [[5]]. *)
Lemma getWeights_write_reaches_agent :
  let h := snd (alloc sample_heap (Fields 1 2 3 4)) in
  getWeights sample_heap 0 = Some (10, h)
  /\ field_b1 h 10 = Some 2
  /\ live_b1 h 0 = [0%float]
  /\ live_b1 (write h 2 0 5%float) 0 = [5%float].
Proof.
  repeat split.
Qed.

Lemma cell_alloc_old (h : heap) (v : value) (r : ref) :
  r < next h -> cell (snd (alloc h v)) r = cell h r.
Proof.
  intros Hr. cbn.
  replace (Nat.eqb r (next h)) with false by (symmetry; apply Nat.eqb_neq; lia).
  reflexivity.
Qed.

Lemma allocated (h : heap) (r : ref) (v : value) :
  heap_wf h -> cell h r = Some v -> r < next h.
Proof.
  intros Hwf E. destruct (Nat.lt_ge_cases r (next h)) as [H|H]; [exact H|].
  rewrite (Hwf r H) in E. discriminate E.
Qed.

Lemma same_arrays_vector (h h' : heap) (r : ref) :
  same_arrays h h' -> read_vector h' r = read_vector h r.
Proof.
  intros S. unfold read_vector.
  destruct (S r) as [E|((a & b & c & d & E) & [E'|(a' & b' & c' & d' & E')])];
    rewrite E; try rewrite E'; reflexivity.
Qed.

Lemma same_arrays_matrix (h h' : heap) (r : ref) :
  same_arrays h h' -> read_matrix h' r = read_matrix h r.
Proof.
  intros S. unfold read_matrix.
  destruct (S r) as [E|((a & b & c & d & E) & [E'|(a' & b' & c' & d' & E')])];
    rewrite E; try rewrite E'; try reflexivity.
  destruct (cell h r) as [[cells|rows|a b c d]|]; try reflexivity.
  apply map_ext. intros r'. apply same_arrays_vector, S.
Qed.

Lemma same_arrays_parameters (h h' : heap) (this : ref) :
  same_arrays h h' -> cell h' this = cell h this ->
  live_parameters h' this = live_parameters h this.
Proof.
  intros S E. unfold live_parameters. rewrite E.
  destruct (cell h this) as [[cells|rows|a b c d]|]; try reflexivity.
  rewrite !(same_arrays_vector h h'), !(same_arrays_matrix h h') by exact S.
  reflexivity.
Qed.

(** C8 (amended). [getWeights] returns a new object whose four fields are
    the agent's own arrays.  The call changes nothing that was in the
    heap, so none of the live parameters [w1], [b1], [w2], [b2], and
    replacing any field of the returned object changes none either; but
    the arrays are shared, not copied: a write into the returned [b1] is
    a write into the live [b1] of the agent, and a write into any array
    leaves both objects pointing at the written array. *)
Theorem getWeights_shares_arrays (h : heap) (this w1 b1 w2 b2 : ref)
    (cells : list number) :
  heap_wf h ->
  cell h this = Some (Fields w1 b1 w2 b2) ->
  cell h b1 = Some (Numbers cells) ->
  exists (weights : ref) (h' : heap),
    getWeights h this = Some (weights, h')
    /\ weights <> this
    /\ cell h weights = None
    /\ cell h' weights = Some (Fields w1 b1 w2 b2)
    /\ cell h' this = Some (Fields w1 b1 w2 b2)
    /\ (forall r, r <> weights -> cell h' r = cell h r)
    /\ live_parameters h' this = live_parameters h this
    /\ (forall k r,
          live_parameters (assign h' weights k r) this = live_parameters h this)
    /\ live_b1 h' this = cells
    /\ (forall r, live_b1 (assign_b1 h' weights r) this = cells)
    /\ (forall i v, live_b1 (write h' b1 i v) this = set cells i v)
    /\ (forall arr cs i v, cell h arr = Some (Numbers cs) ->
          read_vector (write h' arr i v) arr = set cs i v
          /\ cell (write h' arr i v) this = Some (Fields w1 b1 w2 b2)
          /\ cell (write h' arr i v) weights = Some (Fields w1 b1 w2 b2)).
Proof.
  intros Hwf Hobj Hb1.
  pose proof (allocated h this _ Hwf Hobj) as Lthis.
  pose proof (allocated h b1 _ Hwf Hb1) as Lb1.
  assert (Hne : b1 <> this) by (intros ->; congruence).
  set (h' := snd (alloc h (Fields w1 b1 w2 b2))).
  assert (Cnew : cell h' (next h) = Some (Fields w1 b1 w2 b2))
    by (cbn; rewrite Nat.eqb_refl; reflexivity).
  assert (Cold : forall r, r <> next h -> cell h' r = cell h r).
  { intros r Hr. cbn.
    replace (Nat.eqb r (next h)) with false
      by (symmetry; apply Nat.eqb_neq; exact Hr).
    reflexivity. }
  assert (Cthis : cell h' this = Some (Fields w1 b1 w2 b2))
    by (rewrite Cold by lia; exact Hobj).
  assert (Cb1 : cell h' b1 = Some (Numbers cells))
    by (rewrite Cold by lia; exact Hb1).
  assert (Fresh : cell h (next h) = None) by (apply Hwf; lia).
  assert (S1 : same_arrays h h').
  { intros r. destruct (Nat.eq_dec r (next h)) as [->|Hr].
    - right. split; [do 4 eexists; exact Cnew|left; exact Fresh].
    - left. apply Cold, Hr. }
  exists (next h), h'.
  split; [unfold getWeights; rewrite Hobj; reflexivity|].
  split; [lia|]. split; [exact Fresh|]. split; [exact Cnew|].
  split; [exact Cthis|]. split; [exact Cold|].
  split; [apply same_arrays_parameters; [exact S1|congruence]|].
  split; [|split; [|split; [|split]]].
  - intros k r.
    assert (S2 : same_arrays h (assign h' (next h) k r)).
    { intros r'. unfold assign. rewrite Cnew. unfold store. cbn [cell].
      destruct (Nat.eqb r' (next h)) eqn:Er.
      - right. split; [destruct k; do 4 eexists; reflexivity|].
        apply Nat.eqb_eq in Er. subst r'. left. exact Fresh.
      - apply Nat.eqb_neq in Er. left. apply Cold, Er. }
    apply same_arrays_parameters; [exact S2|].
    unfold assign. rewrite Cnew. unfold store. cbn [cell].
    replace (Nat.eqb this (next h)) with false
      by (symmetry; apply Nat.eqb_neq; lia).
    rewrite Cthis, Hobj. reflexivity.
  - unfold live_b1, field_b1, read_vector. rewrite Cthis, Cb1. reflexivity.
  - intros r. unfold assign_b1. rewrite Cnew.
    unfold live_b1, field_b1, read_vector, store. cbn [cell].
    replace (Nat.eqb this (next h)) with false
      by (symmetry; apply Nat.eqb_neq; lia).
    rewrite Cthis.
    replace (Nat.eqb b1 (next h)) with false
      by (symmetry; apply Nat.eqb_neq; lia).
    rewrite Cb1. reflexivity.
  - intros i v. unfold write. rewrite Cb1.
    unfold live_b1, field_b1, read_vector, store. cbn [cell].
    replace (Nat.eqb this b1) with false
      by (symmetry; apply Nat.eqb_neq; intros E; apply Hne; symmetry; exact E).
    rewrite Cthis, Nat.eqb_refl. reflexivity.
  - intros arr cs i v Harr.
    pose proof (allocated h arr _ Hwf Harr) as Larr.
    assert (Carr : cell h' arr = Some (Numbers cs))
      by (rewrite Cold by lia; exact Harr).
    assert (Na : arr <> this) by (intros ->; congruence).
    unfold write. rewrite Carr. unfold read_vector, store. cbn [cell].
    rewrite Nat.eqb_refl.
    replace (Nat.eqb this arr) with false
      by (symmetry; apply Nat.eqb_neq; intros E; apply Na; symmetry; exact E).
    replace (Nat.eqb (next h) arr) with false
      by (symmetry; apply Nat.eqb_neq; lia).
    repeat split; assumption.
Qed.

Lemma getWeights_shares_arrays_sample :
  exists (weights : ref) (h' : heap),
    getWeights sample_heap 0 = Some (weights, h')
    /\ weights <> 0
    /\ cell sample_heap weights = None
    /\ cell h' weights = Some (Fields 1 2 3 4)
    /\ cell h' 0 = Some (Fields 1 2 3 4)
    /\ (forall r, r <> weights -> cell h' r = cell sample_heap r)
    /\ live_parameters h' 0 = live_parameters sample_heap 0
    /\ (forall k r,
          live_parameters (assign h' weights k r) 0
          = live_parameters sample_heap 0)
    /\ live_b1 h' 0 = [0%float]
    /\ (forall r, live_b1 (assign_b1 h' weights r) 0 = [0%float])
    /\ (forall i v, live_b1 (write h' 2 i v) 0 = set [0%float] i v)
    /\ (forall arr cs i v, cell sample_heap arr = Some (Numbers cs) ->
          read_vector (write h' arr i v) arr = set cs i v
          /\ cell (write h' arr i v) 0 = Some (Fields 1 2 3 4)
          /\ cell (write h' arr i v) weights = Some (Fields 1 2 3 4)).
Proof.
  apply (getWeights_shares_arrays sample_heap 0 1 2 3 4 [0%float]).
  - apply sample_heap_wf.
  - reflexivity.
  - reflexivity.
Defined.

End AliasingFacts.

(** ** The simulator over several steps *)

Module EpisodeFacts.

Import JSNumber Types CartPole Episode JSNumberFacts RoundingFacts.
Local Open Scope float_scope.

Lemma is_done_nan (nextX nextTheta : number) :
  is_nan nextX = true -> is_nan nextTheta = true ->
  is_done nextX nextTheta = false.
Proof.
  intros Hx Ht. unfold is_done.
  rewrite (ltb_nan_l _ _ Hx), (ltb_nan_r _ _ Hx),
          (ltb_nan_l _ _ Ht), (ltb_nan_r _ _ Ht).
  reflexivity.
Qed.

Section Run.

Variables Math_cos Math_sin : number -> number.

(** X1. Once the position and the angle are NaN they stay NaN, and no
    later [step] reports [done], whatever the actions: the episode never
    ends. *)
Theorem nan_state_never_terminal (actions : list number)
    (state : CartPoleState) :
  is_nan (x state) = true -> is_nan (theta state) = true ->
  let r := steps Math_cos Math_sin actions state in
  Forall (fun d => d = false) (snd r)
  /\ is_nan (x (fst r)) = true /\ is_nan (theta (fst r)) = true.
Proof.
  revert state. induction actions as [|action rest IH]; intros state Hx Ht.
  - cbn. split; [constructor|]. split; assumption.
  - cbn [steps fst snd].
    set (s1 := fst (step Math_cos Math_sin state action)).
    assert (Hx1 : is_nan (x s1) = true) by (apply add_nan_l, Hx).
    assert (Ht1 : is_nan (theta s1) = true) by (apply add_nan_l, Ht).
    destruct (IH s1 Hx1 Ht1) as (Hd & Hx' & Ht').
    split; [|split; assumption].
    constructor; [|exact Hd].
    apply (is_done_nan _ _ Hx1 Ht1).
Qed.

End Run.

Lemma nan_state_never_terminal_sample :
  Forall (fun d => d = false)
    (snd (steps abs abs [1; 0; 1] (mkState nan 0 nan 0))).
Proof.
  apply (nan_state_never_terminal abs abs [1; 0; 1] (mkState nan 0 nan 0));
    reflexivity.
Defined.

End EpisodeFacts.

(** ** The agent: shapes, actions and call sequences *)

Module AgentFacts.

Import JSNumber JSArray Types MathTs Agent Calls Samples.
Import JSNumberFacts JSArrayFacts RoundingFacts TrainFacts InvariantFacts.
Local Open Scope float_scope.

Lemma length_mapi_from {A B : Type} (f : A -> nat -> B) (l : list A) (k : nat) :
  length (mapi_from k f l) = length l.
Proof.
  revert k. induction l as [|a l IH]; intros k; simpl; [reflexivity|].
  rewrite IH. reflexivity.
Qed.

Lemma length_mapi {A B : Type} (f : A -> nat -> B) (l : list A) :
  length (mapi f l) = length l.
Proof. apply length_mapi_from. Qed.

Lemma length_softmax (Math_exp : number -> number) (logits : list number) :
  length (softmax Math_exp logits) = length logits.
Proof.
  unfold softmax. cbv zeta. rewrite !length_map. reflexivity.
Qed.

Section Forward.

Variables Math_tanh Math_exp : number -> number.

Lemma predict_lengths (a : PolicyGradientAgent) (state : CartPoleState)
    (random : number) :
  let act := snd (snd (predict Math_tanh Math_exp a state random)) in
  length (input act) = inputSize
  /\ length (hidden act) = length (b1 a)
  /\ length (output act) = length (b2 a).
Proof.
  unfold predict. cbn [snd input hidden output].
  rewrite length_softmax, !length_mapi. repeat split.
Qed.

Lemma predict_action_cases (a : PolicyGradientAgent)
    (state : CartPoleState) (random : number) :
  let r := snd (predict Math_tanh Math_exp a state random) in
  fst r = 0 \/ fst r = 1.
Proof.
  unfold predict. cbn [fst snd].
  destruct (random <? _); [left|right]; reflexivity.
Qed.

(** X2. [predict] returns the action 0 or the action 1 and nothing else,
    and it returns 1 whenever the first probability is NaN, whatever
    [Math.random()] gives. *)
Theorem predict_action_binary (a : PolicyGradientAgent)
    (state : CartPoleState) (random : number) :
  let r := snd (predict Math_tanh Math_exp a state random) in
  (fst r = 0 \/ fst r = 1)
  /\ (is_nan (get (output (snd r)) 0) = true -> fst r = 1).
Proof.
  unfold predict. cbn [fst snd output].
  set (probs := softmax Math_exp _).
  split.
  - destruct (random <? get probs 0); [left|right]; reflexivity.
  - intros H. rewrite (ltb_nan_r _ _ H). reflexivity.
Qed.

End Forward.

(** X3. The constructor builds the four parameter arrays with the shapes
    4 x H, H, H x 2 and 2 and an empty buffer, and every sequence of
    [storeStep] and [train] calls keeps these shapes, the hidden width,
    the learning rate and the discount. *)
Theorem constructed_agent_keeps_shapes (draw1 draw2 : nat -> nat -> number)
    (H : nat) (lr g : number) (calls : list call) :
  let a := run calls (new_agent draw1 draw2 H lr g) in
  wf_agent a
  /\ hiddenSize a = H /\ learningRate a = lr /\ gamma a = g
  /\ buffer_empty (new_agent draw1 draw2 H lr g).
Proof.
  intros a.
  assert (K : forall calls a0,
    hiddenSize (fold_left do_call calls a0) = hiddenSize a0
    /\ learningRate (fold_left do_call calls a0) = learningRate a0
    /\ gamma (fold_left do_call calls a0) = gamma a0).
  { clear. induction calls as [|c calls IH]; intros a0; [repeat split|].
    cbn [fold_left]. destruct (IH (do_call a0 c)) as (E1 & E2 & E3).
    rewrite E1, E2, E3. destruct c; repeat split. }
  destruct (K calls (new_agent draw1 draw2 H lr g)) as (E1 & E2 & E3).
  split; [apply run_wf, new_agent_wf|].
  split; [exact E1|]. split; [exact E2|]. split; [exact E3|].
  unfold buffer_empty. cbn. repeat split.
Qed.

(** X4. The buffer holds exactly the steps stored since the last [train]:
    after any sequence of calls, each of the five episode arrays has as
    many entries as there were [storeStep] calls after the last [train]
    (added to what the buffer held, if no [train] was called). *)
Theorem buffer_counts_steps_since_train (calls : list call)
    (a : PolicyGradientAgent) :
  aligned a ->
  let a' := run calls a in
  let n := pending calls (length (episodeRewards a)) in
  length (episodeRewards a') = n /\ length (episodeStates a') = n
  /\ length (episodeHiddens a') = n /\ length (episodeProbs a') = n
  /\ length (episodeActions a') = n.
Proof.
  unfold run, pending. revert a.
  induction calls as [|c calls IH]; intros a (A1 & A2 & A3 & A4).
  - cbn. repeat split; assumption.
  - cbn [fold_left].
    assert (E : length (episodeRewards (do_call a c))
                = match c with
                  | StoreStep _ _ _ => S (length (episodeRewards a))
                  | Train => O
                  end).
    { destruct c; cbn; [rewrite length_app; cbn; lia|reflexivity]. }
    rewrite <- E. apply IH.
    destruct c as [act action reward|]; unfold aligned; cbn.
    + rewrite !length_app. cbn. repeat split; lia.
    + repeat split.
Qed.

Lemma buffer_counts_steps_sample :
  length (episodeRewards
            (run [StoreStep (mkActivations [] [] []) 0 1; Train;
                  StoreStep (mkActivations [] [] []) 1 1;
                  StoreStep (mkActivations [] [] []) 0 1]
                 (sample_agent [1; 1; 1]))) = 2%nat.
Proof.
  apply (buffer_counts_steps_since_train
           [StoreStep (mkActivations [] [] []) 0 1; Train;
            StoreStep (mkActivations [] [] []) 1 1;
            StoreStep (mkActivations [] [] []) 0 1]
           (sample_agent [1; 1; 1])).
  apply sample_agent_aligned.
Defined.

End AgentFacts.

(** ** The simulation loop *)

Module LoopFacts.

Import JSNumber JSArray Types CartPole MathTs Agent Episode App.
Import LoopInvariant Samples.
Import JSArrayFacts BufferFacts TrainFacts InvariantFacts AgentFacts.
Local Open Scope float_scope.

Lemma train_agent_ok (a : PolicyGradientAgent) :
  wf_agent a -> agent_ok (train a) /\ hiddenSize (train a) = hiddenSize a.
Proof.
  intros H. split; [|reflexivity].
  split; [apply train_wf, H|].
  split; [apply buffer_empty_aligned, train_buffer_empty|].
  unfold shapes_ok, train, resetMemory. cbn. repeat split; constructor.
Qed.


Section Loop.

Variables Math_cos Math_sin Math_tanh Math_exp : number -> number.
Variable random : nat -> number.
Variable resetDraws : nat -> number * number * number * number.


(** One [predict], [step], [storeStep] round keeps the invariant. *)
Lemma store_prediction_ok (a : PolicyGradientAgent) (state : CartPoleState)
    (u : number) :
  agent_ok a ->
  let p := predict Math_tanh Math_exp a state u in
  let r := step Math_cos Math_sin state (fst (snd p)) in
  agent_ok (storeStep (fst p) (snd (snd p)) (fst (snd p)) (reward (snd r))).
Proof.
  intros (Hwf & Hal & S1 & S2 & S3 & S4 & S5) p r.
  destruct (predict_lengths Math_tanh Math_exp a state u) as (L1 & L2 & L3).
  pose proof (predict_action_cases Math_tanh Math_exp a state u) as Hact.
  cbv zeta in Hact. fold p in L1, L2, L3, Hact.
  pose proof Hwf as (_ & _ & B1 & _ & _ & B2).
  change (fst p) with a.
  split; [exact Hwf|]. split; [apply storeStep_aligned, Hal|].
  unfold shapes_ok, storeStep.
  cbn [episodeStates episodeHiddens episodeProbs episodeActions
       episodeRewards hiddenSize].
  split; [apply Forall_app; split; [exact S1|]; constructor;
          [exact L1|constructor]|].
  split; [apply Forall_app; split; [exact S2|]; constructor;
          [rewrite L2; exact B1|constructor]|].
  split; [apply Forall_app; split; [exact S3|]; constructor;
          [rewrite L3; exact B2|constructor]|].
  split; [apply Forall_app; split; [exact S4|]; constructor;
          [exact Hact|constructor]|].
  apply Forall_app; split; [exact S5|]. constructor; [reflexivity|constructor].
Qed.

Lemma frameLoop_agent_ok (n : nat) :
  forall (i : nat) (f : Frame),
  agent_ok (agent (sim f)) ->
  let f' := frameLoop Math_cos Math_sin Math_tanh Math_exp random resetDraws
              n i f in
  agent_ok (agent (sim f'))
  /\ hiddenSize (agent (sim f')) = hiddenSize (agent (sim f)).
Proof.
  induction n as [|n IH]; intros i f Hok; cbn [frameLoop].
  - split; [exact Hok|reflexivity].
  - pose proof (store_prediction_ok (agent (sim f)) (env (sim f)) (random i)
                  Hok) as Hst.
    cbv zeta in Hst.
    destruct (done (snd (step Math_cos Math_sin (env (sim f)) _))).
    + cbn [sim agent].
      destruct Hst as (Hwf & _).
      destruct (train_agent_ok _ Hwf) as (Hok' & HH).
      split; [exact Hok'|]. rewrite HH. reflexivity.
    + match goal with
      | |- context [frameLoop _ _ _ _ _ _ n (S i) ?f1] =>
          destruct (IH (S i) f1 Hst) as (Hok' & HH)
      end.
      split; [exact Hok'|]. rewrite HH. reflexivity.
Qed.

(** X5. One call of the loop callback, at any speed and for any draws,
    keeps the agent well formed: the parameter arrays keep their shapes
    and the hidden width, the five episode arrays stay aligned, and the
    buffer holds only activations of the right sizes, actions 0 or 1 and
    rewards 1. *)
Theorem frame_keeps_agent_ok (speed : number) (s : Sim) :
  agent_ok (agent s) ->
  let f := frame Math_cos Math_sin Math_tanh Math_exp random resetDraws
             speed s in
  agent_ok (agent (sim f))
  /\ hiddenSize (agent (sim f)) = hiddenSize (agent s).
Proof.
  intros Hok. unfold frame.
  apply (frameLoop_agent_ok (stepsPerFrame speed) 0
           (mkFrame s (env s) false (mkActivations [] [] []) None)).
  exact Hok.
Qed.





End Loop.

Lemma sample_agent_ok : agent_ok (sample_agent []).
Proof.
  split; [apply sample_agent_wf|]. split; [apply sample_agent_aligned|].
  unfold shapes_ok. cbn. repeat split; constructor.
Qed.

Lemma frame_keeps_agent_ok_sample :
  agent_ok
    (agent (sim (frame abs abs sample_tanh sample_exp (fun _ => 0.5)
                   (fun _ => (0.5, 0.5, 0.5, 0.5)) 2
                   (mkSim (mkState 0 0 0 0) (sample_agent []))))).
Proof.
  apply (frame_keeps_agent_ok abs abs sample_tanh sample_exp (fun _ => 0.5)
           (fun _ => (0.5, 0.5, 0.5, 0.5)) 2
           (mkSim (mkState 0 0 0 0) (sample_agent []))).
  apply sample_agent_ok.
Defined.

End LoopFacts.

(** ** The training statistics *)

Module StatsFacts.

Import JSNumber JSArray Types App AppEvents.
Import JSNumberFacts MaxFacts RoundingFacts.
Local Open Scope float_scope.

Lemma last_entry_snoc (h : list TrainingMetrics) (e : TrainingMetrics) :
  last_entry (h ++ [e]) = Some e.
Proof.
  induction h as [|e0 h IH]; [reflexivity|].
  cbn [app last_entry]. rewrite IH.
  destruct (h ++ [e]) eqn:E; [destruct h; discriminate E|reflexivity].
Qed.

Lemma history_ok_last (h : list TrainingMetrics) (p : TrainingMetrics) :
  history_ok h -> last_entry h = Some p -> is_nan (bestScore p) = false.
Proof.
  intros H. destruct H as [|h e Hh Hn Hs Hp]; [discriminate|].
  rewrite last_entry_snoc. intros E. injection E as <-. exact Hn.
Qed.

Lemma Math_max_pair (a b : number) :
  is_nan a = false -> is_nan b = false ->
  is_nan (Math_max [a; b]) = false
  /\ (a <=? Math_max [a; b]) = true /\ (b <=? Math_max [a; b]) = true.
Proof.
  intros Ha Hb.
  assert (H : Forall (fun v => is_nan v = false) [a; b])
    by (repeat constructor; assumption).
  destruct (Math_max_is_maximum [a; b] H) as (Hall & _).
  inversion Hall as [|? ? Ha' Hall']; subst.
  inversion Hall' as [|? ? Hb' _]; subst.
  split; [apply (leb_not_nan _ _ Ha')|]. split; assumption.
Qed.

Lemma pushEntry_ok (newCount : number) (s : nat) (h : list TrainingMetrics) :
  history_ok h -> history_ok (pushEntry newCount s h).
Proof.
  intros H. unfold pushEntry. apply history_snoc; [exact H| | |];
    unfold newEntry; cbn [bestScore score].
  - destruct (last_entry h) as [p|] eqn:E.
    + apply Math_max_pair; [apply of_length_not_nan|].
      apply (history_ok_last h p H E).
    + apply Math_max_pair; [apply of_length_not_nan|reflexivity].
  - destruct (last_entry h) as [p|] eqn:E.
    + apply Math_max_pair; [apply of_length_not_nan|].
      apply (history_ok_last h p H E).
    + apply Math_max_pair; [apply of_length_not_nan|reflexivity].
  - intros p E. rewrite E.
    apply Math_max_pair; [apply of_length_not_nan|].
    apply (history_ok_last h p H E).
Qed.

(** X7. In the history that the loop builds, one entry per finished
    episode, every [bestScore] is a number (never NaN), is not below the
    score of its own episode and is not below the [bestScore] of the
    entry before it; the first entry has [avgScore] equal to its score,
    and the entries already present are never changed. *)
Theorem metrics_history_best_is_running_maximum (scores : list nat) :
  let st := fold_left episodeEnd scores initialStats in
  history_ok (metricsHistory st)
  /\ List.length (metricsHistory st) = List.length scores
  /\ map score (metricsHistory st) = map of_length scores
  /\ (forall s0 rest, scores = s0 :: rest ->
        exists e t, metricsHistory st = e :: t /\ avgScore e = of_length s0)
  /\ (forall s, metricsHistory (episodeEnd st s)
                = metricsHistory st
                  ++ [newEntry (metricsHistory st) (episodeCount st + 1) s]).
Proof.
  intros st.
  assert (G : forall scores st0,
    history_ok (metricsHistory st0) ->
    history_ok (metricsHistory (fold_left episodeEnd scores st0))
    /\ List.length (metricsHistory (fold_left episodeEnd scores st0))
       = (List.length (metricsHistory st0) + List.length scores)%nat
    /\ map score (metricsHistory (fold_left episodeEnd scores st0))
       = map score (metricsHistory st0) ++ map of_length scores
    /\ exists t, metricsHistory (fold_left episodeEnd scores st0)
                 = metricsHistory st0 ++ t).
  { clear. induction scores as [|s scores IH]; intros st0 H0.
    - cbn. rewrite Nat.add_0_r, !app_nil_r.
      split; [exact H0|]. split; [reflexivity|]. split; [reflexivity|].
      exists []. rewrite app_nil_r. reflexivity.
    - cbn [fold_left].
      destruct (IH (episodeEnd st0 s)) as (I1 & I2 & I3 & t & I4).
      { cbn [episodeEnd metricsHistory]. apply pushEntry_ok, H0. }
      cbn [episodeEnd metricsHistory] in I2, I3, I4.
      unfold pushEntry in I2, I3, I4.
      rewrite length_app in I2. rewrite map_app in I3.
      cbn [List.length map newEntry score] in I2, I3.
      split; [exact I1|].
      split; [rewrite I2; cbn [List.length]; lia|].
      split; [rewrite I3, <- app_assoc; reflexivity|].
      eexists. rewrite I4, <- app_assoc. reflexivity. }
  destruct (G scores initialStats history_nil) as (G1 & G2 & G3 & t & G4).
  split; [exact G1|]. split; [exact G2|]. split; [exact G3|].
  split; [|reflexivity].
  intros s0 rest E. subst st. rewrite E. cbn [fold_left].
  destruct (G rest (episodeEnd initialStats s0)) as (_ & _ & _ & t' & E').
  { cbn [episodeEnd metricsHistory]. apply pushEntry_ok, history_nil. }
  rewrite E'. cbn [episodeEnd metricsHistory initialStats pushEntry app].
  eexists. eexists. split; [reflexivity|]. reflexivity.
Qed.

End StatsFacts.

(** ** The network visualizer *)

Module VisualizerFacts.

Import JSNumber JSArray Types JSMath Agent NetworkVisualizer Samples.
Import JSNumberFacts MaxFacts RoundingFacts JSArrayFacts AgentFacts InvariantFacts.
Local Open Scope float_scope.

Lemma all_some_none {A : Type} (l : list (option A)) :
  all_some l = None <-> In None l.
Proof.
  induction l as [|[a|] l IH]; cbn.
  - split; [discriminate|contradiction].
  - destruct (all_some l).
    + split; [discriminate|]. intros [H|H]; [discriminate|].
      apply IH in H. discriminate H.
    + split; [intros _; right; apply IH; reflexivity|reflexivity].
  - split; [intros _; left; reflexivity|reflexivity].
Qed.

Lemma all_some_length {A : Type} (l : list (option A)) (r : list A) :
  all_some l = Some r -> List.length r = List.length l.
Proof.
  revert r. induction l as [|[a|] l IH]; intros r; cbn.
  - intros E. injection E as <-. reflexivity.
  - destruct (all_some l) as [t|]; [|discriminate].
    intros E. injection E as <-. cbn. rewrite (IH t eq_refl). reflexivity.
  - discriminate.
Qed.

Lemma In_mapi_from {A B : Type} (f : A -> nat -> B) (l : list A) (k : nat)
    (b : B) :
  In b (mapi_from k f l)
  <-> exists i a, nth_error l i = Some a /\ b = f a (k + i)%nat.
Proof.
  revert k. induction l as [|a0 l IH]; intros k; cbn.
  - split; [contradiction|]. intros (i & a & E & _). destruct i; discriminate.
  - rewrite IH. split.
    + intros [E|(i & a & E & Hb)].
      * exists 0%nat, a0. rewrite Nat.add_0_r. split; [reflexivity|].
        symmetry. exact E.
      * exists (S i), a. split; [exact E|].
        rewrite Hb. f_equal. lia.
    + intros (i & a & E & Hb). destruct i as [|i].
      * left. cbn in E. injection E as ->. rewrite Nat.add_0_r in Hb.
        symmetry. exact Hb.
      * right. exists i, a. split; [exact E|]. rewrite Hb. f_equal. lia.
Qed.

Lemma nth_map_seq {A : Type} (f : nat -> A) (n k : nat) (d : A) :
  (k < n)%nat -> nth k (map f (seq 0 n)) d = f k.
Proof.
  intros H.
  rewrite (nth_indep _ d (f 0%nat)) by (rewrite length_map, length_seq; exact H).
  rewrite (map_nth f), seq_nth by exact H. reflexivity.
Qed.

Lemma all_some_in {A : Type} (l : list (option A)) (r : list A) (a : A) :
  all_some l = Some r -> In a r -> In (Some a) l.
Proof.
  revert r. induction l as [|[a0|] l IH]; intros r; cbn.
  - intros E. injection E as <-. contradiction.
  - destruct (all_some l) as [t|]; [|discriminate].
    intros E. injection E as <-. intros [->|H]; [left; reflexivity|].
    right. apply (IH t eq_refl H).
  - discriminate.
Qed.

(** Every group of lines has one line for each destination node. *)
Lemma all_some_groups (w : list (list number)) (srcs dsts : list Node)
    (c : list (list Line)) (n : nat) :
  all_some
    (mapi (fun src i => all_some (mapi (fun dst j => line w i j src dst) dsts))
          srcs) = Some c ->
  List.length dsts = n ->
  Forall (fun g => List.length g = n) c.
Proof.
  intros E Hn. apply Forall_forall. intros g Hg.
  pose proof (all_some_in _ _ _ E Hg) as Hin.
  unfold mapi in Hin. apply In_mapi_from in Hin.
  destruct Hin as (i & src & _ & Hi).
  symmetry in Hi. apply all_some_length in Hi.
  rewrite length_mapi_from in Hi. rewrite Hi. exact Hn.
Qed.

(** A group of connections cannot be built exactly when some source node
    has no row of weights. *)
Lemma connections_none (w : list (list number)) (srcs dsts : list Node) :
  dsts <> [] ->
  (connections w srcs dsts = None <-> (List.length w < List.length srcs)%nat).
Proof.
  intros Hd. unfold connections. rewrite all_some_none.
  unfold mapi. rewrite In_mapi_from. split.
  - intros (i & src & Ei & Hi). cbn [Nat.add] in Hi.
    symmetry in Hi. apply all_some_none in Hi.
    apply In_mapi_from in Hi. destruct Hi as (j & dst & Ej & Hj).
    unfold line in Hj. destruct (nth_error w i) eqn:Ew; [discriminate|].
    apply nth_error_None in Ew.
    assert (i < List.length srcs)%nat
      by (apply nth_error_Some; rewrite Ei; discriminate).
    lia.
  - intros Hlt.
    destruct (nth_error srcs (List.length w)) as [src|] eqn:Es;
      [|apply nth_error_None in Es; lia].
    exists (List.length w), src. split; [exact Es|].
    symmetry. apply all_some_none. apply In_mapi_from.
    destruct dsts as [|dst dsts]; [contradiction|].
    exists 0%nat, dst. split; [reflexivity|].
    unfold line. cbn [Nat.add].
    replace (nth_error w (List.length w)) with (@None (list number))
      by (symmetry; apply nth_error_None; lia).
    reflexivity.
Qed.

Section Render.

Variables width height : number.

Lemma length_nodes (lIdx size : nat) (acts : list number) :
  List.length (nodes width height lIdx size acts) = size.
Proof.
  unfold nodes. cbv zeta. rewrite length_map, length_seq. reflexivity.
Qed.

Lemma nodes_nonempty (lIdx size : nat) (acts : list number) :
  size <> 0%nat -> nodes width height lIdx size acts <> [].
Proof.
  intros Hs E. apply (f_equal (@List.length Node)) in E.
  rewrite length_nodes in E. cbn in E. exact (Hs E).
Qed.

Lemma render_none (w1 w2 : list (list number))
    (activations : LayerActivations) :
  render width height w1 w2 activations = None
  <-> (List.length w1 < 4)%nat \/ (List.length w2 < 16)%nat.
Proof.
  unfold render, layers. cbv zeta. cbn [nth].
  pose proof (connections_none w1
                (nodes width height 0 inputNodes (input activations))
                (nodes width height 1 hiddenNodes (hidden activations))
                (nodes_nonempty 1%nat hiddenNodes (hidden activations)
                   ltac:(cbv; discriminate))) as C1.
  pose proof (connections_none w2
                (nodes width height 1 hiddenNodes (hidden activations))
                (nodes width height 2 outputNodes (output activations))
                (nodes_nonempty 2%nat outputNodes (output activations)
                   ltac:(cbv; discriminate))) as C2.
  rewrite length_nodes in C1, C2.
  change inputNodes with 4%nat in C1. change hiddenNodes with 16%nat in C2.
  destruct (connections w1 _ _) as [c1|].
  - destruct (connections w2 _ _) as [c2|].
    + split; [discriminate|]. intros [H|H].
      * apply C1 in H. discriminate H.
      * apply C2 in H. discriminate H.
    + split; [intros _; right; apply C2; reflexivity|reflexivity].
  - split; [intros _; left; apply C1; reflexivity|reflexivity].
Qed.

(** X8. The visualizer always draws the hidden layer with 16 nodes.  Its
    connections can be computed exactly when [w1] has at least 4 rows and
    [w2] at least 16, whatever the activations are: with fewer rows the
    read [weights.w2[i][j]] of a missing row raises a TypeError, and with
    more only the first 16 hidden units are drawn, in 4 and 16 groups of
    16 and 2 lines. *)
Theorem render_needs_sixteen_hidden_rows (w1 w2 : list (list number))
    (activations : LayerActivations) :
  (render width height w1 w2 activations = None
   <-> (List.length w1 < 4)%nat \/ (List.length w2 < 16)%nat)
  /\ (forall c1 c2, render width height w1 w2 activations = Some (c1, c2) ->
        List.length c1 = 4%nat /\ List.length c2 = 16%nat
        /\ Forall (fun g => List.length g = 16%nat) c1
        /\ Forall (fun g => List.length g = 2%nat) c2).
Proof.
  split; [apply render_none|].
  intros c1 c2. unfold render, layers. cbv zeta. cbn [nth].
  destruct (connections w1 _ _) as [c1'|] eqn:E1; [|discriminate].
  destruct (connections w2 _ _) as [c2'|] eqn:E2; [|discriminate].
  intros E. injection E as <- <-.
  unfold connections in E1, E2.
  pose proof (all_some_length _ _ E1) as L1.
  pose proof (all_some_length _ _ E2) as L2.
  rewrite length_mapi, length_nodes in L1, L2.
  split; [exact L1|]. split; [exact L2|].
  split.
  - apply (all_some_groups _ _ _ _ _ E1). apply length_nodes.
  - apply (all_some_groups _ _ _ _ _ E2). apply length_nodes.
Qed.

(** X9. Each layer is drawn with its fixed number of nodes (4, 16, 2)
    whatever the lengths of the activation arrays, and the value of a
    node is never NaN: a missing or NaN activation is shown as 0. *)
Theorem node_values_are_numbers (activations : LayerActivations) :
  map (@List.length Node) (layers width height activations) = [4; 16; 2]%nat
  /\ Forall (fun layer => Forall (fun n => is_nan (val n) = false) layer)
       (layers width height activations)
  /\ (forall lIdx size acts k, (k < size)%nat ->
        val (nth k (nodes width height lIdx size acts) (mkNode 0 0 0))
        = (if is_zero (get acts k) || is_nan (get acts k) then 0
           else get acts k)).
Proof.
  assert (V : forall lIdx size acts,
            Forall (fun n => is_nan (val n) = false)
                   (nodes width height lIdx size acts)).
  { intros lIdx size acts. unfold nodes. cbv zeta.
    apply Forall_forall. intros n Hn. apply in_map_iff in Hn.
    destruct Hn as (k & <- & _). cbn [val]. unfold js_or, truthy.
    destruct (is_zero (get acts k)); [reflexivity|].
    destruct (is_nan (get acts k)) eqn:E; [reflexivity|exact E]. }
  split; [|split].
  - unfold layers. cbn [map]. rewrite !length_nodes. reflexivity.
  - unfold layers. constructor; [apply V|]. constructor; [apply V|].
    constructor; [apply V|constructor].
  - intros lIdx size acts k Hk. unfold nodes. cbv zeta.
    rewrite nth_map_seq by exact Hk. cbn [val].
    unfold js_or, truthy.
    destruct (is_zero (get acts k) || is_nan (get acts k)); reflexivity.
Qed.

End Render.

(** X10. The opacity of a connection lies between 0 and 1 for every
    weight that is a number, and is NaN when the weight is NaN, as is the
    [undefined] that a missing cell gives. *)
Theorem opacity_in_unit_interval (w : number) :
  (is_nan w = false ->
     is_nan (getOpacity w) = false
     /\ (0 <=? getOpacity w) = true /\ (getOpacity w <=? 1) = true)
  /\ (is_nan w = true -> is_nan (getOpacity w) = true).
Proof.
  unfold getOpacity, Math_min. cbn [fold_left]. split.
  - intros H. destruct (abs_scaled_nonneg w H) as (Hn & Hpos).
    set (v := Math_abs w * 0.8) in *.
    destruct (min2_spec infinity v eq_refl Hn) as (Hor1 & _ & Hle1).
    assert (Hn1 : is_nan (min2 infinity v) = false)
      by (destruct Hor1 as [-> | ->]; [reflexivity|exact Hn]).
    assert (Hp1 : (0 <=? min2 infinity v) = true)
      by (destruct Hor1 as [-> | ->]; [reflexivity|exact Hpos]).
    destruct (min2_spec (min2 infinity v) 1 Hn1 eq_refl) as (Hor2 & _ & Hle2).
    split; [|split].
    + destruct Hor2 as [-> | ->]; [exact Hn1|reflexivity].
    + destruct Hor2 as [-> | ->]; [exact Hp1|reflexivity].
    + exact Hle2.
  - intros H.
    assert (Hv : is_nan (Math_abs w * 0.8) = true).
    { apply is_nan_intro. unfold Math_abs.
      rewrite mul_spec, abs_spec, (nan_inv w H). reflexivity. }
    unfold min2 at 2. rewrite Hv, orb_true_r.
    unfold min2. reflexivity.
Qed.

Lemma opacity_in_unit_interval_sample :
  (0 <=? getOpacity (-3.5)) = true /\ (getOpacity (-3.5) <=? 1) = true.
Proof.
  split; apply (opacity_in_unit_interval (-3.5)); reflexivity.
Defined.

End VisualizerFacts.

(** ** The component over its events *)

Module AppFacts.

Import JSNumber JSArray Types CartPole MathTs Agent App LoopInvariant AppEvents.
Import NetworkVisualizer.
Import BufferFacts InvariantFacts LoopFacts StatsFacts VisualizerFacts.
Local Open Scope float_scope.

Lemma new_agent_ok (draw1 draw2 : nat -> nat -> number) (H : nat)
    (lr g : number) :
  agent_ok (new_agent draw1 draw2 H lr g).
Proof.
  split; [apply new_agent_wf|]. split; [apply new_agent_aligned|].
  unfold shapes_ok. cbn. repeat split; constructor.
Qed.

Lemma initialState_ok (draw1 draw2 : nat -> nat -> number)
    (d : number * number * number * number) :
  app_ok (initialState draw1 draw2 d).
Proof.
  split; [apply new_agent_ok|]. split; [reflexivity|constructor].
Qed.

Section Events.

Variables Math_cos Math_sin Math_tanh Math_exp : number -> number.

Lemma handle_ok (st : AppState) (e : event) :
  app_ok st -> app_ok (handle Math_cos Math_sin Math_tanh Math_exp st e).
Proof.
  intros (Hok & Hh & Hhist).
  destruct e as [draw1 draw2 d|draw1 draw2 d newSettings
                 |speed random resetDraws]; cbn [handle].
  - split; [apply new_agent_ok|]. split; [reflexivity|constructor].
  - unfold handleSettingsChange. cbv zeta.
    destruct (Nat.eqb (settings_hiddenSize newSettings)
                      (settings_hiddenSize (agentSettings st))) eqn:E;
      cbn [negb].
    + apply Nat.eqb_eq in E.
      split; [|split; [cbn; rewrite Hh, E; reflexivity|exact Hhist]].
      destruct Hok as (Hwf & Hal & Hsh). repeat split; try apply Hwf;
        try apply Hal; try apply Hsh.
    + split; [apply new_agent_ok|]. split; [reflexivity|constructor].
  - unfold tick. cbv zeta.
    unfold frame.
    destruct (frameLoop_agent_ok Math_cos Math_sin Math_tanh Math_exp
                random resetDraws (stepsPerFrame speed) 0
                (mkFrame (mkSim (envRef st) (agentRef st)) (envRef st) false
                   (mkActivations [] [] []) None) Hok)
      as (Hok' & HH).
    split; [exact Hok'|]. split; [cbn in *; rewrite HH; exact Hh|].
    cbn [stats]. destruct (ended _); [|exact Hhist].
    cbn [episodeEnd metricsHistory]. apply pushEntry_ok, Hhist.
Qed.

Lemma events_ok (events : list event) (st : AppState) :
  app_ok st ->
  app_ok (fold_left (handle Math_cos Math_sin Math_tanh Math_exp) events st).
Proof.
  revert st. induction events as [|e events IH]; intros st H; cbn.
  - exact H.
  - apply IH, handle_ok, H.
Qed.

(** X11. From the first render on, whatever the user clicks and however
    long the loop runs, the agent keeps the constructor's shapes and has
    exactly the hidden width shown in the settings, its episode arrays
    are aligned and hold only well-sized activations, actions 0 or 1 and
    rewards 1, and the history of statistics is in order. *)
Theorem component_keeps_invariant (draw1 draw2 : nat -> nat -> number)
    (d : number * number * number * number) (events : list event) :
  let st := fold_left (handle Math_cos Math_sin Math_tanh Math_exp) events
              (initialState draw1 draw2 d) in
  wf_agent (agentRef st) /\ aligned (agentRef st) /\ shapes_ok (agentRef st)
  /\ hiddenSize (agentRef st) = settings_hiddenSize (agentSettings st)
  /\ history_ok (metricsHistory (stats st)).
Proof.
  intros st.
  destruct (events_ok events (initialState draw1 draw2 d)
              (initialState_ok draw1 draw2 d))
    as ((Hwf & Hal & Hsh) & Hh & Hhist).
  repeat split; try apply Hwf; try apply Hal; try apply Hsh; assumption.
Qed.

(** X12. In every state that the component reaches, the visualizer can
    compute its connections from the agent's weights exactly when the
    hidden width of the settings is at least 16; saving settings with a
    smaller width (the panel offers 8) installs an agent for which the
    read of [weights.w2[i][j]] raises a TypeError. *)
Theorem small_hidden_width_breaks_visualizer
    (draw1 draw2 : nat -> nat -> number)
    (d : number * number * number * number) (events : list event)
    (width height : number) (activations : LayerActivations) :
  let st := fold_left (handle Math_cos Math_sin Math_tanh Math_exp) events
              (initialState draw1 draw2 d) in
  (render width height (w1 (agentRef st)) (w2 (agentRef st)) activations
   = None
   <-> (settings_hiddenSize (agentSettings st) < 16)%nat)
  /\ (forall draw1' draw2' d' newSettings,
        let st' := handleSettingsChange draw1' draw2' d' newSettings st in
        agentSettings st' = newSettings
        /\ ((settings_hiddenSize newSettings < 16)%nat ->
            render width height (w1 (agentRef st')) (w2 (agentRef st'))
              activations = None)).
Proof.
  intros st.
  assert (K : forall s, app_ok s ->
    (render width height (w1 (agentRef s)) (w2 (agentRef s)) activations
     = None
     <-> (settings_hiddenSize (agentSettings s) < 16)%nat)).
  { intros s (((W1len & _ & _ & W2len & _) & _) & Hh & _).
    rewrite render_none, W1len, W2len, Hh. unfold inputSize.
    split; [intros [H|H]; [lia|exact H]|]. intros H. right. exact H. }
  pose proof (events_ok events (initialState draw1 draw2 d)
                (initialState_ok draw1 draw2 d)) as Hst.
  fold st in Hst.
  split; [apply K, Hst|].
  intros draw1' draw2' d' newSettings st'.
  pose proof (handle_ok st (SettingsChange draw1' draw2' d' newSettings) Hst)
    as Hst'.
  cbn [handle] in Hst'. fold st' in Hst'.
  assert (E : agentSettings st' = newSettings).
  { subst st'. unfold handleSettingsChange. cbv zeta.
    destruct (negb _); reflexivity. }
  split; [exact E|]. intros Hlt. apply (K st' Hst'). rewrite E. exact Hlt.
Qed.

End Events.

End AppFacts.
